(** * GameGraphicsProgramming: the component base class, the transform
    cache and the level loader

  A shallow embedding of
  - [Component.cpp]   (constructor, lifecycle hooks, [SetEntiy]),
  - [Transform.h]     (the fields and the inline getters),
  - [MyDemoGame.cpp]  ([MyDemoGame::TestLoadLevel]),
  with the parts of the C and C++ runtime the loader calls
  ([strstr], [sscanf_s], [std::string::substr], [std::ifstream::getline]).

  Conventions.  A C++ pointer is an [option nat]: [None] is [nullptr] and
  [Some a] is the address [a] of an object in a typed store.  A [void]
  member function is a state transformer that returns [tt] next to the
  new object state.  [float] is kept abstract. *)

From Stdlib Require Import ZArith Ascii String Lia.
From stdpp Require Import base option list strings.

Local Open Scope string_scope.

Abbreviation nullptr := (@None nat) (only parsing).

(** A member function of a class with state [S] that returns an [A]. *)
Definition method (S A : Type) : Type := S -> A * S.

(** The object state after a call. *)
Definition after {S A : Type} (m : method S A) (s : S) : S := snd (m s).

(* ================================================================== *)
(** ** Component.cpp *)
(* ================================================================== *)

Module Component.

Section WithIndexConstant.

(** [Component.h] is not part of the sources at hand; [UNINDEXED] is the
    constant it declares and the constructor stores. *)
Variable UNINDEXED : Z.

(** The two data members the constructor initialises. *)
Record Component : Type := mkComponent {
  parrentEntity : option nat;   (* Entity* *)
  index : Z
}.

(** [Component::Component()] *)
Definition Component_ctor : Component :=
  {| parrentEntity := nullptr; index := UNINDEXED |}.

(** [void Component::Added() { }] *)
Definition Added : method Component unit := fun c => (tt, c).

(** [void Component::Removed() { }] *)
Definition Removed : method Component unit := fun c => (tt, c).

(** [void Component::Update() { }] *)
Definition Update : method Component unit := fun c => (tt, c).

(** [void Component::SetEntiy(Entity* newParrentEntity)]:
    [if (parrentEntity != nullptr) return;
     parrentEntity = newParrentEntity;] *)
Definition SetEntiy (newParrentEntity : option nat) : method Component unit :=
  fun c =>
    match parrentEntity c with
    | Some _ => (tt, c)
    | None => (tt, {| parrentEntity := newParrentEntity; index := index c |})
    end.

(** A run of [SetEntiy] calls, oldest first. *)
Definition SetEntiy_calls (ps : list (option nat)) (c : Component) : Component :=
  foldl (fun c p => after (SetEntiy p) c) c ps.

(** The first pointer of a call sequence that is not [nullptr]. *)
Fixpoint first_entity (ps : list (option nat)) : option nat :=
  match ps with
  | [] => nullptr
  | Some e :: _ => Some e
  | None :: ps' => first_entity ps'
  end.

End WithIndexConstant.

End Component.

(* ================================================================== *)
(** ** The C and C++ runtime the loader calls *)
(* ================================================================== *)

Module Runtime.

(** What a call can throw; the loader catches nothing. *)
Inductive exception : Type := out_of_range.

Inductive result (A : Type) : Type :=
| Ok (a : A)
| Throw (e : exception).
Arguments Ok {A} a.
Arguments Throw {A} e.

Definition bind {A B : Type} (r : result A) (k : A -> result B) : result B :=
  match r with
  | Ok a => k a
  | Throw e => Throw e
  end.

(** A [char*] that is tested against [nullptr]. *)
Definition non_null {A : Type} (p : option A) : bool :=
  match p with Some _ => true | None => false end.

(** The characters of a buffer up to its first NUL: what [strstr],
    [sscanf_s] and the [std::string] constructor read of it. *)
Fixpoint c_str (buf : string) : string :=
  match buf with
  | EmptyString => EmptyString
  | String c rest =>
      if Ascii.eqb c "000"%char then EmptyString else String c (c_str rest)
  end.

(** [strstr(hay, needle)]: the suffix of [hay] that starts at the first
    occurrence of [needle], a null pointer when there is none. *)
Fixpoint strstr (hay needle : string) : option string :=
  if String.prefix needle hay then Some hay
  else match hay with
       | EmptyString => None
       | String _ hay' => strstr hay' needle
       end.

(** [std::string::substr(pos, len)]: throws when [pos] is past the end,
    and is cut short at the end of the string. *)
Definition substr (s : string) (pos len : nat) : result string :=
  if Nat.leb pos (String.length s) then Ok (String.substring pos len s)
  else Throw out_of_range.

(** [isspace] in the C locale. *)
Definition isspace (c : ascii) : bool :=
  let n := N_of_ascii c in
  N.eqb n 32 || (N.leb 9 n && N.leb n 13).

Fixpoint skip_ws (input : string) : string :=
  match input with
  | String c rest => if isspace c then skip_ws rest else input
  | EmptyString => EmptyString
  end.

(** *** [std::ifstream] *)

(** The characters not yet read and the two state bits the loop sees;
    [badbit] is never set by a read from memory. *)
Record ifstream : Type := mkStream {
  rdbuf : string;
  eofbit : bool;
  failbit : bool
}.

Definition good (s : ifstream) : bool := negb (eofbit s) && negb (failbit s).

(** Why the extraction of a line stopped. *)
Inductive stop : Type := AtEof | AtDelim | BufferFull.

(** The extraction loop of [getline(buf, n)] with [room = n - 1]: per
    character the tests are, in this order, end of file, the delimiter
    (extracted, not stored), and no room left. *)
Fixpoint extract_line (room : nat) (input : string) {struct input}
  : string * string * stop :=
  match input with
  | EmptyString => (EmptyString, EmptyString, AtEof)
  | String c rest =>
      if Ascii.eqb c "010"%char then (EmptyString, rest, AtDelim)
      else match room with
           | O => (EmptyString, input, BufferFull)
           | S room' =>
               let '(stored, rest', why) := extract_line room' rest in
               (String c stored, rest', why)
           end
  end.

(** [s.getline(buf, n)] on a [good] stream: the buffer contents and the
    stream after the call.  [failbit] is set when the buffer filled up
    and when nothing at all was extracted. *)
Definition getline (s : ifstream) (n : nat) : string * ifstream :=
  let '(stored, rest, why) := extract_line (n - 1) (rdbuf s) in
  let s' :=
    match why with
    | AtDelim => {| rdbuf := rest; eofbit := false; failbit := false |}
    | AtEof =>
        {| rdbuf := rest; eofbit := true;
           failbit := Nat.eqb (String.length stored) 0 |}
    | BufferFull => {| rdbuf := rest; eofbit := false; failbit := true |}
    end in
  (stored, s').

(** The file system: the contents of the files that can be opened. *)
Definition filesystem : Type := string -> option string.

(** [std::ifstream s(name)]; [None] when [is_open()] is false. *)
Definition open (fs : filesystem) (name : string) : option ifstream :=
  match fs name with
  | Some contents => Some {| rdbuf := contents; eofbit := false; failbit := false |}
  | None => None
  end.

End Runtime.

(* ================================================================== *)
(** ** Numbers: [float], [%f] and the DirectXMath value types *)
(* ================================================================== *)

(** The [float] type and the conversion [%f] performs on input whose first
    character is not a space: the value read and the unread rest, [None]
    when no prefix of the input is a number. *)
Class FloatModel : Type := {
  float : Type;
  strtof : string -> option (float * string)
}.

Module DirectX.

(** [DirectX::XMFLOAT3] *)
Record XMFLOAT3 `{FloatModel} : Type := mkXMFLOAT3 {
  x : float;
  y : float;
  z : float
}.

End DirectX.

Import DirectX (XMFLOAT3, mkXMFLOAT3).

(** [DirectX::XMFLOAT4X4] and the two matrix computations a world matrix
    needs: the matrix of a scale, a rotation and a translation, and the
    matrix product. *)
Class MatrixModel `{FloatModel} : Type := {
  XMFLOAT4X4 : Type;
  XMMatrixAffine : XMFLOAT3 -> XMFLOAT3 -> XMFLOAT3 -> XMFLOAT4X4;
  XMMatrixMultiply : XMFLOAT4X4 -> XMFLOAT4X4 -> XMFLOAT4X4
}.

Module Scanf.

Import Runtime.

Section WithFloat.

Context `{FloatModel}.

(** [EOF] of <stdio.h>. *)
Definition EOF : Z := (-1)%Z.

(** The directives of a format string over literal characters, white
    space and [%f]. *)
Inductive directive : Type :=
| Literal (c : ascii)
| Space
| Float.

(** One character of a format, when it does not start a [%f]. *)
Definition plain (c : ascii) : directive :=
  if isspace c then Space else Literal c.

Fixpoint parse_format (format : string) : list directive :=
  match format with
  | EmptyString => []
  | String c rest =>
      match rest with
      | String c' rest' =>
          if Ascii.eqb c "%"%char && Ascii.eqb c' "f"%char
          then Float :: match rest with
                        | String _ after_f => parse_format after_f
                        | EmptyString => []
                        end
          else plain c :: parse_format rest
      | EmptyString => [plain c]
      end
  end.

(** Runs the directives over the input.  Returns the converted values in
    order and whether the scan stopped on an input failure (the input ran
    out) rather than on a matching failure or the end of the format. *)
Fixpoint scan (ds : list directive) (input : string) : list float * bool :=
  match ds with
  | [] => ([], false)
  | Literal c :: ds' =>
      match input with
      | EmptyString => ([], true)
      | String d rest => if Ascii.eqb c d then scan ds' rest else ([], false)
      end
  | Space :: ds' => scan ds' (skip_ws input)
  | Float :: ds' =>
      match skip_ws input with
      | EmptyString => ([], true)
      | String d rest =>
          match strtof (String d rest) with
          | None => ([], false)
          | Some (v, rest') =>
              let '(vs, input_failure) := scan ds' rest' in
              (v :: vs, input_failure)
          end
      end
  end.

(** [sscanf_s(buffer, format, ...)]: the return value, and the values to
    store through the first pointers of the argument list.  The return
    value is the number of values stored, or [EOF] when the input ran out
    before the first conversion. *)
Definition sscanf_s (buffer format : string) : Z * list float :=
  let '(vs, input_failure) := scan (parse_format format) buffer in
  (if input_failure && Nat.eqb (List.length vs) 0 then EOF
   else Z.of_nat (List.length vs),
   vs).

(** Storing the scanned values through [&v.x, &v.y, &v.z]: a member that
    no value was scanned for keeps what it held. *)
Definition store3 (vs : list float) (v : XMFLOAT3) : XMFLOAT3 :=
  {| DirectX.x := nth 0 vs (DirectX.x v);
     DirectX.y := nth 1 vs (DirectX.y v);
     DirectX.z := nth 2 vs (DirectX.z v) |}.

End WithFloat.

End Scanf.

(* ================================================================== *)
(** ** Transform.h *)
(* ================================================================== *)

Module Transform.

Section WithMatrices.

Context `{MatrixModel}.

(** The private data members. *)
Record Transform : Type := mkTransform {
  parrent : option nat;          (* Transform* *)
  isDirty : bool;
  position : XMFLOAT3;
  rotation : XMFLOAT3;
  scale : XMFLOAT3;
  worldMatrix : XMFLOAT4X4
}.

(** [GetPosition() { return position; }] and its siblings. *)
Definition GetPosition : method Transform XMFLOAT3 := fun t => (position t, t).
Definition GetRotation : method Transform XMFLOAT3 := fun t => (rotation t, t).
Definition GetScale : method Transform XMFLOAT3 := fun t => (scale t, t).
Definition GetParrent : method Transform (option nat) := fun t => (parrent t, t).

(** Modelled from the spec: the body of [Transform::SetPosition] is in
    Transform.cpp, which is not at hand.  The spec has every setter store
    its argument and invalidate the cached world matrix. *)
Definition SetPosition (newPos : XMFLOAT3) : method Transform unit :=
  fun t =>
    (tt, {| parrent := parrent t; isDirty := true; position := newPos;
            rotation := rotation t; scale := scale t;
            worldMatrix := worldMatrix t |}).

(** Modelled from the spec: [Transform::SetRotation], as [SetPosition]. *)
Definition SetRotation (newRot : XMFLOAT3) : method Transform unit :=
  fun t =>
    (tt, {| parrent := parrent t; isDirty := true; position := position t;
            rotation := newRot; scale := scale t;
            worldMatrix := worldMatrix t |}).

(** Modelled from the spec: [Transform::SetScale], as [SetPosition]. *)
Definition SetScale (newScale : XMFLOAT3) : method Transform unit :=
  fun t =>
    (tt, {| parrent := parrent t; isDirty := true; position := position t;
            rotation := rotation t; scale := newScale;
            worldMatrix := worldMatrix t |}).

(** Modelled from the spec: [Transform::SetParrent], as [SetPosition]. *)
Definition SetParrent (newParrent : option nat) : method Transform unit :=
  fun t =>
    (tt, {| parrent := newParrent; isDirty := true; position := position t;
            rotation := rotation t; scale := scale t;
            worldMatrix := worldMatrix t |}).

(** What a transform holds after its world matrix was recomputed. *)
Definition cache (world : XMFLOAT4X4) (t : Transform) : Transform :=
  {| parrent := parrent t; isDirty := false; position := position t;
     rotation := rotation t; scale := scale t; worldMatrix := world |}.

(** Modelled from the spec: the body of [Transform::RecalculateWorldMatrix]
    is in Transform.cpp, which is not at hand.  The spec has it return the
    cached matrix unless the dirty flag is set, and otherwise recompute the
    matrix from scale, rotation and position, multiplied by the parent's
    world matrix when there is a parent, store it and clear the flag.
    There is no cycle detection: [fuel] bounds the depth of the recursion
    and [None] stands for a walk that did not end within it.  The
    transforms of the scene are given by address in [h], and a parent
    pointer is an address in it.  The last component of the result lists
    the transforms the call was made on, in order. *)
Fixpoint RecalculateWorldMatrix (fuel : nat) (a : nat) (h : list Transform)
  : option (XMFLOAT4X4 * list Transform * list nat) :=
  match fuel with
  | O => None
  | S fuel' =>
      match h !! a with
      | None => None
      | Some t =>
          if isDirty t then
            let local := XMMatrixAffine (scale t) (rotation t) (position t) in
            match parrent t with
            | None => Some (local, alter (cache local) a h, [a])
            | Some p =>
                match RecalculateWorldMatrix fuel' p h with
                | None => None
                | Some (pm, h', visited) =>
                    let world := XMMatrixMultiply local pm in
                    Some (world, alter (cache world) a h', a :: visited)
                end
            end
          else Some (worldMatrix t, h, [a])
      end
  end.

(** [GetWorldMatrix() { return RecalculateWorldMatrix(); }] *)
Definition GetWorldMatrix (fuel : nat) (a : nat) (h : list Transform)
  : option (XMFLOAT4X4 * list Transform * list nat) :=
  RecalculateWorldMatrix fuel a h.

(** The parent chain of a transform: itself, its parent, and so on up to
    a transform without parent; [None] when that takes more than [fuel]
    transforms or leaves the store. *)
Fixpoint parent_chain (fuel : nat) (a : nat) (h : list Transform) : option (list nat) :=
  match fuel with
  | O => None
  | S fuel' =>
      match h !! a with
      | None => None
      | Some t =>
          match parrent t with
          | None => Some [a]
          | Some p =>
              match parent_chain fuel' p h with
              | None => None
              | Some chain => Some (a :: chain)
              end
          end
      end
  end.

End WithMatrices.

End Transform.

(* ================================================================== *)
(** ** MyDemoGame.cpp: the objects the loader builds *)
(* ================================================================== *)

Module Game.

Import Runtime.

Section WithEngine.

Context `{MatrixModel}.

(** [UNINDEXED] of Component.h and the transform [Transform::Transform()]
    builds (Transform.cpp): neither is part of the sources at hand. *)
Variable UNINDEXED : Z.
Variable Transform_ctor : Transform.Transform.

(** A mesh, by the constructor that built it ([Mesh(path, device)] or
    [Mesh(vertices, n, indices, m, device)]); the geometry is left out. *)
Inductive Mesh : Type :=
| Mesh_file (path : string)
| Mesh_arrays (numVerts numIndices : nat).

(** [DrawnMesh(render, mesh, material)]: a [Component] with the three
    pointers it is built from. *)
Record DrawnMesh : Type := mkDrawnMesh {
  base : Component.Component;
  dm_render : nat;
  dm_mesh : nat;
  dm_material : nat
}.

Definition DrawnMesh_ctor (render mesh material : nat) : DrawnMesh :=
  {| base := Component.Component_ctor UNINDEXED;
     dm_render := render; dm_mesh := mesh; dm_material := material |}.

(** Modelled from the spec: the class [Entity] is not part of the sources
    at hand.  The spec has an entity own an ordered collection of
    components, each with a back-reference to the entity; the loader reads
    its transform through [GetTransform()]. *)
Record Entity : Type := mkEntity {
  transform : Transform.Transform;
  components : list DrawnMesh
}.

Definition Entity_ctor : Entity :=
  {| transform := Transform_ctor; components := [] |}.

(** Modelled from the spec: [Entity::AddComponent] on the entity at
    address [this] appends the component, with its back-reference set
    through [Component::SetEntiy]. *)
Definition AddComponent (this : nat) (c : DrawnMesh) : method Entity unit :=
  fun e =>
    let c' := {| base := after (Component.SetEntiy (Some this)) (base c);
                 dm_render := dm_render c; dm_mesh := dm_mesh c;
                 dm_material := dm_material c |} in
    (tt, {| transform := transform e; components := components e ++ [c'] |}).

(** A call of a [Transform] member function on [GetTransform()]. *)
Definition on_transform {A : Type} (m : method Transform.Transform A)
  : method Entity A :=
  fun e =>
    let '(r, t) := m (transform e) in
    (r, {| transform := t; components := components e |}).

(** The members of [MyDemoGame] the loader touches, the objects on the
    free store by type and address, and the text handed to [LogText]. *)
Record MyDemoGame : Type := mkGame {
  ents : list nat;               (* std::vector<Entity*> *)
  meshes : list nat;             (* std::vector<Mesh*> *)
  render : nat;
  basicMaterial : nat;
  heap_Entity : list Entity;
  heap_Mesh : list Mesh;
  logged : list string
}.

(** [new Mesh(...)]: the address of the new object and the game after. *)
Definition new_Mesh (m : Mesh) (g : MyDemoGame) : nat * MyDemoGame :=
  (List.length (heap_Mesh g),
   {| ents := ents g; meshes := meshes g; render := render g;
      basicMaterial := basicMaterial g; heap_Entity := heap_Entity g;
      heap_Mesh := heap_Mesh g ++ [m]; logged := logged g |}).

(** [new Entity()] *)
Definition new_Entity (g : MyDemoGame) : nat * MyDemoGame :=
  (List.length (heap_Entity g),
   {| ents := ents g; meshes := meshes g; render := render g;
      basicMaterial := basicMaterial g;
      heap_Entity := heap_Entity g ++ [Entity_ctor];
      heap_Mesh := heap_Mesh g; logged := logged g |}).

(** [e->m(...)] for a [void] member function [m] of [Entity]. *)
Definition call_Entity (e : nat) (m : method Entity unit) (g : MyDemoGame)
  : MyDemoGame :=
  {| ents := ents g; meshes := meshes g; render := render g;
     basicMaterial := basicMaterial g;
     heap_Entity := alter (after m) e (heap_Entity g);
     heap_Mesh := heap_Mesh g; logged := logged g |}.

(** [ents.push_back(e)] *)
Definition ents_push_back (e : nat) (g : MyDemoGame) : MyDemoGame :=
  {| ents := ents g ++ [e]; meshes := meshes g; render := render g;
     basicMaterial := basicMaterial g; heap_Entity := heap_Entity g;
     heap_Mesh := heap_Mesh g; logged := logged g |}.

(** [meshes.push_back(m)] *)
Definition meshes_push_back (m : nat) (g : MyDemoGame) : MyDemoGame :=
  {| ents := ents g; meshes := meshes g ++ [m]; render := render g;
     basicMaterial := basicMaterial g; heap_Entity := heap_Entity g;
     heap_Mesh := heap_Mesh g; logged := logged g |}.

(** [LogText(text)] (Logger.h): the text handed over is recorded. *)
Definition LogText (text : string) (g : MyDemoGame) : MyDemoGame :=
  {| ents := ents g; meshes := meshes g; render := render g;
     basicMaterial := basicMaterial g; heap_Entity := heap_Entity g;
     heap_Mesh := heap_Mesh g; logged := logged g ++ [text] |}.

(* ================================================================== *)
(** ** [MyDemoGame::TestLoadLevel] *)
(* ================================================================== *)

(** The game together with the two locals that live across iterations. *)
Record Loader : Type := mkLoader {
  game : MyDemoGame;
  state : Z;
  currentEntity : option nat     (* Entity* *)
}.

Definition set_game (g : MyDemoGame) (l : Loader) : Loader :=
  {| game := g; state := state l; currentEntity := currentEntity l |}.

(** [if (currentEntity != nullptr) currentEntity->GetTransform().m(v);] *)
Definition if_current (m : method Transform.Transform unit) (l : Loader)
  : Loader :=
  match currentEntity l with
  | Some e => set_game (call_Entity e (on_transform m) (game l)) l
  | None => l
  end.

(** The [case 4] branch on a line with ["model"] in it. *)
Definition load_model (line : string) (l : Loader) : result Loader :=
  bind (substr line 6 (String.length line)) (fun name =>
    let modelPath := "Assets/Models/" ++ name ++ ".obj" in
    let g := LogText modelPath (game l) in
    let '(newMesh, g) := new_Mesh (Mesh_file modelPath) g in
    let '(e, g) := new_Entity g in
    let g := call_Entity e
               (AddComponent e (DrawnMesh_ctor (render g) newMesh (basicMaterial g)))
               g in
    let g := ents_push_back e g in
    let g := meshes_push_back newMesh g in
    Ok {| game := g; state := state l; currentEntity := Some e |}).

(** One iteration of the [while] loop after [getline]: [buffer] is what
    [getline] stored in [chars], and [junk] is what the uninitialised
    local [pos], [rot] or [scl] of this iteration holds. *)
Definition loop_body (buffer : string) (junk : XMFLOAT3) (l : Loader)
  : result Loader :=
  let chars := c_str buffer in
  let line := chars in
  let '(statelessRead, l) :=
    if non_null (strstr chars "arena") then
      (true, {| game := game l; state := 4; currentEntity := currentEntity l |})
    else if non_null (strstr chars "pos") then
      let pos := Scanf.store3 (snd (Scanf.sscanf_s chars "pos %f %f %f")) junk in
      (true, if_current (Transform.SetPosition pos) l)
    else if non_null (strstr chars "rot") then
      let rot := Scanf.store3 (snd (Scanf.sscanf_s chars "rot %f %f %f")) junk in
      (true, if_current (Transform.SetRotation rot) l)
    else if non_null (strstr chars "scl") then
      let scl := Scanf.store3 (snd (Scanf.sscanf_s chars "scl %f %f %f")) junk in
      (true, if_current (Transform.SetScale scl) l)
    else (false, l) in
  if negb statelessRead then
    if Z.eqb (state l) 4 then
      if non_null (strstr chars "model") then load_model line l
      else Ok l
    else Ok l
  else Ok l.

(** [while (s.good()) { s.getline(chars, 400); ... }], with the number of
    the iteration as the index into the uninitialised values.  [None]
    only when [fuel] iterations were not enough. *)
Fixpoint read_lines (fuel : nat) (junk : nat -> XMFLOAT3) (n : nat)
    (s : ifstream) (l : Loader) : option (result Loader) :=
  if good s then
    match fuel with
    | O => None
    | S fuel' =>
        let '(buffer, s') := getline s 400 in
        match loop_body buffer (junk n) l with
        | Ok l' => read_lines fuel' junk (S n) s' l'
        | Throw e => Some (Throw e)
        end
    end
  else Some (Ok l).

(** [void MyDemoGame::TestLoadLevel(char* mapName)].  Every iteration that
    leaves the stream good has taken a character out of it, so one more
    iteration than the file has characters is all the loop can make. *)
Definition TestLoadLevel (fs : filesystem) (junk : nat -> XMFLOAT3)
    (mapName : string) (g : MyDemoGame) : option (result MyDemoGame) :=
  match open fs mapName with
  | None => Some (Ok g)
  | Some s =>
      match read_lines (S (String.length (rdbuf s))) junk 0 s
              {| game := g; state := 0; currentEntity := nullptr |} with
      | Some (Ok l) => Some (Ok (game l))
      | Some (Throw e) => Some (Throw e)
      | None => None
      end
  end.

(** The buffers the loop reads from a stream, in order. *)
Fixpoint buffers (fuel : nat) (s : ifstream) : list string :=
  if good s then
    match fuel with
    | O => []
    | S fuel' => let '(buffer, s') := getline s 400 in buffer :: buffers fuel' s'
    end
  else [].

(** The loop body over a list of buffers, the first with junk [junk n]. *)
Fixpoint run_lines (junk : nat -> XMFLOAT3) (n : nat) (bs : list string)
    (l : Loader) : result Loader :=
  match bs with
  | [] => Ok l
  | b :: bs' => bind (loop_body b (junk n) l) (run_lines junk (S n) bs')
  end.

(** *** Vocabulary for the statements about the loader *)

(** [strstr(chars, keyword)] is not null. *)
Definition contains (chars keyword : string) : bool :=
  non_null (strstr chars keyword).

(** The loader as the loop finds it at its first iteration. *)
Definition initial (g : MyDemoGame) : Loader :=
  {| game := g; state := 0; currentEntity := nullptr |}.

(** What [TestLoadLevel] leaves behind of the loader. *)
Definition finish (r : result Loader) : result MyDemoGame :=
  match r with
  | Ok l => Ok (game l)
  | Throw e => Throw e
  end.

(** The buffers the loop reads from a file with these contents. *)
Definition lines_of (contents : string) : list string :=
  buffers (S (String.length contents))
    {| rdbuf := contents; eofbit := false; failbit := false |}.

(** The three members of a transform a line can set. *)
Inductive field : Type := F_pos | F_rot | F_scl.

Definition format (f : field) : string :=
  match f with
  | F_pos => "pos %f %f %f"
  | F_rot => "rot %f %f %f"
  | F_scl => "scl %f %f %f"
  end.

Definition setter (f : field) : XMFLOAT3 -> method Transform.Transform unit :=
  match f with
  | F_pos => Transform.SetPosition
  | F_rot => Transform.SetRotation
  | F_scl => Transform.SetScale
  end.

(** What a line can be taken for. *)
Inductive directive : Type :=
| Arena
| Field (f : field)
| Model
| Unrecognised.

(** What the loader does on a line once it is taken for [d]. *)
Definition perform (d : directive) (chars : string) (junk : XMFLOAT3)
    (l : Loader) : result Loader :=
  match d with
  | Arena => Ok {| game := game l; state := 4; currentEntity := currentEntity l |}
  | Field f =>
      Ok (if_current
            (setter f (Scanf.store3 (snd (Scanf.sscanf_s chars (format f))) junk))
            l)
  | Model => load_model chars l
  | Unrecognised => Ok l
  end.

(** Recognition by substring: the first of [arena], [pos], [rot], [scl]
    that occurs anywhere in the line decides, and [model] counts when none
    of them occurs and the loader is in state 4. *)
Definition directive_by_substring (chars : string) (state : Z) : directive :=
  if contains chars "arena" then Arena
  else if contains chars "pos" then Field F_pos
  else if contains chars "rot" then Field F_rot
  else if contains chars "scl" then Field F_scl
  else if Z.eqb state 4 && contains chars "model" then Model
  else Unrecognised.

(** The branch of a field is taken: [arena] does not occur and the
    keyword of the field is the first of the three to occur. *)
Definition reaches (f : field) (chars : string) : bool :=
  negb (contains chars "arena")
  && match f with
     | F_pos => contains chars "pos"
     | F_rot => negb (contains chars "pos") && contains chars "rot"
     | F_scl => negb (contains chars "pos") && negb (contains chars "rot")
                && contains chars "scl"
     end.

(** A line with [model] in it and none of the four other keywords. *)
Definition is_model_line (chars : string) : bool :=
  contains chars "model"
  && negb (contains chars "arena" || contains chars "pos"
           || contains chars "rot" || contains chars "scl").

(** The leading white-space separated token of a line. *)
Fixpoint token (input : string) : string :=
  match input with
  | EmptyString => EmptyString
  | String c rest => if isspace c then EmptyString else String c (token rest)
  end.

Definition first_token (chars : string) : string := token (skip_ws chars).

(** Recognition by token: the line is the directive its leading token
    names. *)
Definition directive_by_token (chars : string) : directive :=
  let t := first_token chars in
  if String.eqb t "arena" then Arena
  else if String.eqb t "pos" then Field F_pos
  else if String.eqb t "rot" then Field F_rot
  else if String.eqb t "scl" then Field F_scl
  else if String.eqb t "model" then Model
  else Unrecognised.

End WithEngine.

End Game.

(* ================================================================== *)
(** ** An instance to run the model on *)
(* ================================================================== *)

Module Sample.

Import Runtime.

(** The value of a decimal digit. *)
Definition digit (c : ascii) : option Z :=
  if Ascii.eqb c "0"%char then Some 0%Z
  else if Ascii.eqb c "1"%char then Some 1%Z
  else if Ascii.eqb c "2"%char then Some 2%Z
  else if Ascii.eqb c "3"%char then Some 3%Z
  else if Ascii.eqb c "4"%char then Some 4%Z
  else if Ascii.eqb c "5"%char then Some 5%Z
  else if Ascii.eqb c "6"%char then Some 6%Z
  else if Ascii.eqb c "7"%char then Some 7%Z
  else if Ascii.eqb c "8"%char then Some 8%Z
  else if Ascii.eqb c "9"%char then Some 9%Z
  else None.

(** The digits at the front of the input, as a number, and the rest. *)
Fixpoint digits (acc : Z) (input : string) : Z * string :=
  match input with
  | EmptyString => (acc, EmptyString)
  | String c rest =>
      match digit c with
      | Some d => digits (10 * acc + d) rest
      | None => (acc, input)
      end
  end.

(** Whole numbers with an optional minus sign stand in for [float]. *)
Definition strtoz (input : string) : option (Z * string) :=
  match input with
  | String c rest =>
      if Ascii.eqb c "-"%char then
        match rest with
        | String c' rest' =>
            match digit c' with
            | Some d => let '(v, rest'') := digits d rest' in Some ((- v)%Z, rest'')
            | None => None
            end
        | EmptyString => None
        end
      else
        match digit c with
        | Some d => Some (digits d rest)
        | None => None
        end
  | EmptyString => None
  end.

#[export] Instance whole_numbers : FloatModel :=
  {| float := Z; strtof := strtoz |}.

(** A matrix is kept as the list of (scale, rotation, position) triples
    whose matrices were multiplied, leftmost factor first. *)
#[export] Instance symbolic_matrices : MatrixModel :=
  {| XMFLOAT4X4 := list (XMFLOAT3 * XMFLOAT3 * XMFLOAT3);
     XMMatrixAffine := fun s r p => [(s, r, p)];
     XMMatrixMultiply := fun a b => (a ++ b)%list |}.

Definition vec (a b c : Z) : XMFLOAT3 := mkXMFLOAT3 _ a b c.

(** A transform as a constructor might leave it. *)
Definition fresh_transform : Transform.Transform :=
  {| Transform.parrent := nullptr; Transform.isDirty := true;
     Transform.position := vec 0 0 0; Transform.rotation := vec 0 0 0;
     Transform.scale := vec 1 1 1; Transform.worldMatrix := [] |}.

(** A game before any geometry was created. *)
Definition empty_game : Game.MyDemoGame :=
  {| Game.ents := []; Game.meshes := []; Game.render := 0;
     Game.basicMaterial := 0; Game.heap_Entity := []; Game.heap_Mesh := [];
     Game.logged := [] |}.

(** Uninitialised locals that all hold (7, 8, 9). *)
Definition junk789 : nat -> XMFLOAT3 := fun _ => vec 7 8 9.

(** A file system with the one file [name]. *)
Definition one_file (name contents : string) : filesystem :=
  fun n => if String.eqb n name then Some contents else None.

(** The line feed. *)
Definition LF : string := String "010"%char EmptyString.

(** [TestLoadLevel] on a level file with the given contents. *)
Definition load (contents : string) (g : Game.MyDemoGame)
  : option (result Game.MyDemoGame) :=
  Game.TestLoadLevel (-1) fresh_transform (one_file "level.txt" contents)
    junk789 "level.txt" g.

(** The loop body of the sample engine. *)
Definition body (buffer : string) (l : Game.Loader) : result Game.Loader :=
  Game.loop_body (-1) fresh_transform buffer (vec 7 8 9) l.

(** The loader after an [arena] line, before any entity. *)
Definition in_arena : Game.Loader :=
  {| Game.game := empty_game; Game.state := 4; Game.currentEntity := nullptr |}.

(** The loader after [arena] and [model cube]: entity 0 is current. *)
Definition with_cube : Game.Loader :=
  match body "model cube" in_arena with
  | Ok l => l
  | Throw _ => in_arena
  end.

(** A child at address 0 whose parent, at address 1, has none; both are
    dirty. *)
Definition child_transform : Transform.Transform :=
  {| Transform.parrent := Some 1; Transform.isDirty := true;
     Transform.position := vec 1 0 0; Transform.rotation := vec 0 0 0;
     Transform.scale := vec 1 1 1; Transform.worldMatrix := [] |}.

Definition two_transforms : list Transform.Transform :=
  [child_transform; fresh_transform].

(** The position of the entity at address [e] in the outcome of a line. *)
Definition position_after (e : nat) (r : result Game.Loader)
  : option XMFLOAT3 :=
  match r with
  | Ok l =>
      match Game.heap_Entity (Game.game l) !! e with
      | Some ent => Some (Transform.position (Game.transform ent))
      | None => None
      end
  | Throw _ => None
  end.

(** The entity list in the outcome of a line. *)
Definition ents_after (r : result Game.Loader) : option (list nat) :=
  match r with
  | Ok l => Some (Game.ents (Game.game l))
  | Throw _ => None
  end.

End Sample.

(* ================================================================== *)
(** ** MyDemoGame.cpp: building and tearing down the scene *)
(* ================================================================== *)

Module Scene.

Import Runtime Game.

Section WithEngine.

Context `{MatrixModel}.
Variable UNINDEXED : Z.
Variable Transform_ctor : Transform.Transform.

(** The five statements [CreateGeometry] makes three times over:
    [Mesh* m = new Mesh(...); Entity* e = new Entity();
     e->AddComponent(new DrawnMesh(render, m, basicMaterial));
     ents.push_back(e); meshes.push_back(m);] *)
Definition add_drawn_entity (mesh : Mesh) (g : MyDemoGame) : MyDemoGame :=
  let '(m, g) := new_Mesh mesh g in
  let '(e, g) := new_Entity Transform_ctor g in
  let g := call_Entity e
             (AddComponent e
                (DrawnMesh_ctor UNINDEXED (render g) m (basicMaterial g)))
             g in
  let g := ents_push_back e g in
  meshes_push_back m g.

(** [void MyDemoGame::CreateGeometry()].  The vertex and index arrays
    enter the model by their sizes only; the first and the third pair of
    arrays are not used by the code. *)
Definition CreateGeometry (g : MyDemoGame) : MyDemoGame :=
  let g := add_drawn_entity (Mesh_file "Assets/Models/helix.obj") g in
  let g := add_drawn_entity (Mesh_arrays 4 6) g in
  add_drawn_entity (Mesh_file "Assets/Models/sphere.obj") g.

(** The two calls of [MyDemoGame::Init] that build the scene:
    [CreateGeometry(); TestLoadLevel("Assets/Maps/Untitled.txt");] *)
Definition Init_scene (fs : filesystem) (junk : nat -> XMFLOAT3)
    (g : MyDemoGame) : option (result MyDemoGame) :=
  TestLoadLevel UNINDEXED Transform_ctor fs junk "Assets/Maps/Untitled.txt"
    (CreateGeometry g).

(** [delete p] over the cells of a store, [true] for an object that is
    alive.  [None] is the undefined behaviour of deleting through a
    pointer that is dangling or was deleted before. *)
Definition delete (p : nat) (alive : list bool) : option (list bool) :=
  match alive !! p with
  | Some true => Some (<[p := false]> alive)
  | _ => None
  end.

(** [for (int i = 0; i < v.size(); i++) { delete v[i]; }] *)
Fixpoint delete_each (v : list nat) (alive : list bool) : option (list bool) :=
  match v with
  | [] => Some alive
  | p :: v' =>
      match delete p alive with
      | Some alive' => delete_each v' alive'
      | None => None
      end
  end.

(** The two loops of [MyDemoGame::~MyDemoGame()], from a free store on
    which every entity and every mesh is alive: the cells of both stores
    after the loops. *)
Definition destructor_loops (g : MyDemoGame) : option (list bool * list bool) :=
  match delete_each (ents g) (replicate (length (heap_Entity g)) true) with
  | Some entities =>
      match delete_each (meshes g) (replicate (length (heap_Mesh g)) true) with
      | Some meshes => Some (entities, meshes)
      | None => None
      end
  | None => None
  end.

(** *** Vocabulary for the statements about the scene *)

(** The path the loader builds from a model line. *)
Definition model_path (chars : string) : string :=
  "Assets/Models/"
  ++ String.substring 6 (String.length chars) chars ++ ".obj".

(** The model lines among the buffers that come after a line with
    [arena] in it, in order and as C strings; [seen] tells whether such a
    line came before the first buffer. *)
Fixpoint model_lines (seen : bool) (bs : list string) : list string :=
  match bs with
  | [] => []
  | b :: bs' =>
      if contains (c_str b) "arena" then model_lines true bs'
      else if seen && is_model_line (c_str b)
           then c_str b :: model_lines seen bs'
           else model_lines seen bs'
  end.

(** [g'] is [g] with one entity per mesh of [new_meshes] appended: the
    new objects sit at the next free addresses of both stores, [ents] and
    [meshes] end in these addresses, and every entity and mesh of [g] is
    in [g'] as it was. *)
Definition appended (g g' : MyDemoGame) (new_meshes : list Mesh) : Prop :=
  ents g' = (ents g ++ seq (length (heap_Entity g)) (length new_meshes))%list
  /\ meshes g' = (meshes g ++ seq (length (heap_Mesh g)) (length new_meshes))%list
  /\ heap_Mesh g' = (heap_Mesh g ++ new_meshes)%list
  /\ take (length (heap_Entity g)) (heap_Entity g') = heap_Entity g
  /\ length (heap_Entity g') = length (heap_Entity g) + length new_meshes
  /\ render g' = render g
  /\ basicMaterial g' = basicMaterial g.

(** The keyword of a field, as its format starts. *)
Definition keyword (f : field) : string :=
  match f with
  | F_pos => "pos"
  | F_rot => "rot"
  | F_scl => "scl"
  end.

(** The line feed, as a string. *)
Definition newline : string := String "010"%char EmptyString.

(** A string without a line feed in it. *)
Fixpoint one_line (s : string) : bool :=
  match s with
  | EmptyString => true
  | String c rest => negb (Ascii.eqb c "010"%char) && one_line rest
  end.

(** A line the buffer of the loop has room for. *)
Definition fits (line : string) : bool :=
  one_line line && Nat.leb (String.length line) 399.

(** The text of a file made of these lines, each ended by a line feed. *)
Fixpoint text_of (lines : list string) : string :=
  match lines with
  | [] => EmptyString
  | line :: lines' => line ++ newline ++ text_of lines'
  end.

(** The loader [l] has so far turned [g0] into a game with one entity per
    path of [paths]: the meshes are the files of these paths, the paths
    were logged, and the current entity, if there is one, is one of the
    new entities. *)
Definition tracks (g0 : MyDemoGame) (paths : list string) (l : Loader) : Prop :=
  appended g0 (game l) (Mesh_file <$> paths)
  /\ logged (game l) = (logged g0 ++ paths)%list
  /\ match currentEntity l with
     | None => True
     | Some e =>
         length (heap_Entity g0) <= e /\ e < length (heap_Entity (game l))
     end.

(** The entity [add_drawn_entity] leaves at address [e] for the mesh at
    address [m]: a fresh transform and one drawn-mesh component that
    points back at the entity. *)
Definition drawn_entity (e m : nat) (g : MyDemoGame) : Entity :=
  {| transform := Transform_ctor;
     components :=
       [ {| base := {| Component.parrentEntity := Some e;
                       Component.index := UNINDEXED |};
            dm_render := render g;
            dm_mesh := m;
            dm_material := basicMaterial g |} ] |}.

(** [ents] and [meshes] hold the address of every object of their store
    exactly once, in whatever order. *)
Definition owns_all (g : MyDemoGame) : Prop :=
  ents g ≡ₚ seq 0 (length (heap_Entity g))
  /\ meshes g ≡ₚ seq 0 (length (heap_Mesh g)).

End WithEngine.

End Scene.

(* ================================================================== *)
(** ** MyDemoGame.cpp: the mouse *)
(* ================================================================== *)

Module Mouse.

(** [LONG] arithmetic: the result of a subtraction as two's complement
    arithmetic on 32 bits computes it. *)
Definition wrap32 (v : Z) : Z := ((v + 2 ^ 31) mod 2 ^ 32 - 2 ^ 31)%Z.

(** [POINT] *)
Record POINT : Type := mkPOINT {
  x : Z;      (* LONG *)
  y : Z       (* LONG *)
}.

(** The members the mouse handlers touch, and whether the window holds
    the mouse capture. *)
Record Mouse : Type := mkMouse {
  prevMousePos : POINT;
  curMousePos : POINT;
  capture : bool
}.

(** [if (prevMousePos.x == 0 && prevMousePos.y == 0) {
       prevMousePos.x = curMousePos.x; prevMousePos.y = curMousePos.y; }
     curMousePos.x = x; curMousePos.y = y;] *)
Definition track (px py : Z) (m : Mouse) : Mouse :=
  let prev :=
    if Z.eqb (x (prevMousePos m)) 0 && Z.eqb (y (prevMousePos m)) 0
    then {| x := x (curMousePos m); y := y (curMousePos m) |}
    else prevMousePos m in
  {| prevMousePos := prev;
     curMousePos := {| x := px; y := py |};
     capture := capture m |}.

(** [void MyDemoGame::OnMouseDown(WPARAM btnState, int x, int y)]: the
    statements of [track], then [SetCapture(hMainWnd)]. *)
Definition OnMouseDown (px py : Z) : method Mouse unit :=
  fun m =>
    let m := track px py m in
    (tt, {| prevMousePos := prevMousePos m; curMousePos := curMousePos m;
            capture := true |}).

(** [void MyDemoGame::OnMouseUp(WPARAM btnState, int x, int y)]:
    [ReleaseCapture();] *)
Definition OnMouseUp (px py : Z) : method Mouse unit :=
  fun m =>
    (tt, {| prevMousePos := prevMousePos m; curMousePos := curMousePos m;
            capture := false |}).

(** [void MyDemoGame::OnMouseMove(WPARAM btnState, int x, int y)] *)
Definition OnMouseMove (px py : Z) : method Mouse unit :=
  fun m => (tt, track px py m).

(** The last statements of [MyDemoGame::UpdateScene], the only ones of it
    that name the mouse positions:
    [LONG deltaMouseX = curMousePos.x - prevMousePos.x;
     LONG deltaMouseY = curMousePos.y - prevMousePos.y;
     camera.Update(deltaTime, deltaMouseX, deltaMouseY);
     prevMousePos.x = curMousePos.x; prevMousePos.y = curMousePos.y;]
    The value returned is the pair of deltas handed to the camera. *)
Definition UpdateScene_mouse : method Mouse (Z * Z) :=
  fun m =>
    let deltaMouseX := wrap32 (x (curMousePos m) - x (prevMousePos m)) in
    let deltaMouseY := wrap32 (y (curMousePos m) - y (prevMousePos m)) in
    ((deltaMouseX, deltaMouseY),
     {| prevMousePos := {| x := x (curMousePos m); y := y (curMousePos m) |};
        curMousePos := curMousePos m;
        capture := capture m |}).

(** The test of the handlers for a position that was never set. *)
Definition at_origin (p : POINT) : bool := Z.eqb (x p) 0 && Z.eqb (y p) 0.

(** The window messages between two frames. *)
Inductive message : Type :=
| Down (px py : Z)
| Up (px py : Z)
| Move (px py : Z).

Definition dispatch (msg : message) (m : Mouse) : Mouse :=
  match msg with
  | Down px py => after (OnMouseDown px py) m
  | Up px py => after (OnMouseUp px py) m
  | Move px py => after (OnMouseMove px py) m
  end.

(** The messages of a list, oldest first. *)
Definition dispatch_all (msgs : list message) (m : Mouse) : Mouse :=
  foldl (fun m msg => dispatch msg m) m msgs.

(** The position the cursor is at after the messages, from [start]. *)
Fixpoint cursor_after (msgs : list message) (start : POINT) : POINT :=
  match msgs with
  | [] => start
  | Down px py :: msgs' => cursor_after msgs' {| x := px; y := py |}
  | Move px py :: msgs' => cursor_after msgs' {| x := px; y := py |}
  | Up _ _ :: msgs' => cursor_after msgs' start
  end.

End Mouse.

(* ================================================================== *)
(** ** More values to run the model on *)
(* ================================================================== *)

Module Sample2.

Import Runtime Sample.

(** A level file with an [arena] line and a [model cube] line. *)
Definition cube_level : string := "arena" ++ LF ++ "model cube" ++ LF.

(** Uninitialised locals that all hold (0, 0, 0). *)
Definition junk000 : nat -> XMFLOAT3 := fun _ => vec 0 0 0.

(** A line of 399 characters. *)
Definition long_line : string :=
  string_of_list_ascii (replicate 399 "a"%char).

(** A mouse that was at (1, 1) at the last frame and is at (5, 5). *)
Definition mouse_at_5_5 : Mouse.Mouse :=
  {| Mouse.prevMousePos := Mouse.mkPOINT 1 1;
     Mouse.curMousePos := Mouse.mkPOINT 5 5;
     Mouse.capture := false |}.

(** A mouse that has never moved. *)
Definition mouse_at_origin : Mouse.Mouse :=
  {| Mouse.prevMousePos := Mouse.mkPOINT 0 0;
     Mouse.curMousePos := Mouse.mkPOINT 0 0;
     Mouse.capture := false |}.

(** The level file of [Init], with the contents given. *)
Definition untitled (contents : string) : filesystem :=
  one_file "Assets/Maps/Untitled.txt" contents.

(** The two scene-building calls of [Init], on the sample engine. *)
Definition init_scene (contents : string) (g : Game.MyDemoGame)
  : option (result Game.MyDemoGame) :=
  Scene.Init_scene (-1) fresh_transform (untitled contents) junk789 g.

(** The scene of [cube_level]: the three entities of [CreateGeometry]
    and the cube. *)
Definition cube_scene : Game.MyDemoGame :=
  match init_scene cube_level empty_game with
  | Some (Ok g) => g
  | _ => empty_game
  end.

(** A game of two entities and two meshes whose [ents] is not in the
    order of allocation. *)
Definition shuffled_game : Game.MyDemoGame :=
  {| Game.ents := [1; 0]; Game.meshes := [0; 1]; Game.render := 0;
     Game.basicMaterial := 0;
     Game.heap_Entity := [Game.mkEntity fresh_transform [];
                          Game.mkEntity fresh_transform []];
     Game.heap_Mesh := [Game.Mesh_arrays 3 3; Game.Mesh_arrays 4 6];
     Game.logged := [] |}.

(** The scene of [cube_level] built on top of it. *)
Definition shuffled_scene : Game.MyDemoGame :=
  match init_scene cube_level shuffled_game with
  | Some (Ok g) => g
  | _ => shuffled_game
  end.

End Sample2.

(* ================================================================== *)
(** * Properties *)
(* ================================================================== *)

(** ** [Component] *)

Module ComponentSpec.

Import Component.

(** Once the back-reference is set, [SetEntiy] returns at its guard. *)
Lemma SetEntiy_guard (c : Component) (e : nat) (p : option nat) :
  parrentEntity c = Some e -> SetEntiy p c = (tt, c).
Proof. intros Hset. unfold SetEntiy. now rewrite Hset. Qed.

(** While it is null, [SetEntiy] stores its argument and nothing else. *)
Lemma SetEntiy_store (c : Component) (p : option nat) :
  parrentEntity c = nullptr ->
  SetEntiy p c = (tt, {| parrentEntity := p; index := index c |}).
Proof. intros Hnull. unfold SetEntiy. now rewrite Hnull. Qed.

Lemma SetEntiy_calls_guard (ps : list (option nat)) (c : Component) (e : nat) :
  parrentEntity c = Some e -> SetEntiy_calls ps c = c.
Proof.
  induction ps as [|p ps IH]; intros Hset; [reflexivity|].
  unfold SetEntiy_calls in *. cbn [foldl]. unfold after at 2.
  rewrite (SetEntiy_guard c e p Hset). cbn [snd]. now apply IH.
Qed.

(** Over any run of calls on a component whose back-reference is null,
    the pointer stored at the end is the first one that was not null. *)
Lemma SetEntiy_calls_first_entity (ps : list (option nat)) (c : Component) :
  parrentEntity c = nullptr ->
  parrentEntity (SetEntiy_calls ps c) = first_entity ps
  /\ index (SetEntiy_calls ps c) = index c.
Proof.
  revert c. induction ps as [|[e|] ps IH]; intros c Hnull.
  - now split.
  - change (SetEntiy_calls (Some e :: ps) c)
      with (SetEntiy_calls ps (after (SetEntiy (Some e)) c)).
    unfold after. rewrite (SetEntiy_store c (Some e) Hnull). cbn [snd].
    now rewrite (SetEntiy_calls_guard ps
                   {| parrentEntity := Some e; index := index c |} e).
  - change (SetEntiy_calls (None :: ps) c)
      with (SetEntiy_calls ps (after (SetEntiy None) c)).
    unfold after. rewrite (SetEntiy_store c None Hnull). cbn [snd].
    now apply (IH {| parrentEntity := None; index := index c |}).
Qed.

(** C2.  On a component whose back-reference has not been set, the call of
    [SetEntiy] with the address [e] of an entity stores [e] and leaves the
    index alone; every call after it, with whatever pointer, returns the
    component as it was, and so does every run of such calls. *)
Theorem SetEntiy_sets_once (c : Component) (e : nat) :
  parrentEntity c = nullptr ->
  let c1 := after (SetEntiy (Some e)) c in
  parrentEntity c1 = Some e
  /\ index c1 = index c
  /\ (forall p : option nat, SetEntiy p c1 = (tt, c1))
  /\ (forall later : list (option nat), SetEntiy_calls later c1 = c1).
Proof.
  intros Hnull c1.
  assert (Hc1 : parrentEntity c1 = Some e).
  { subst c1. unfold after. now rewrite (SetEntiy_store c (Some e) Hnull). }
  repeat split.
  - exact Hc1.
  - subst c1. unfold after. now rewrite (SetEntiy_store c (Some e) Hnull).
  - intros p. exact (SetEntiy_guard c1 e p Hc1).
  - intros later. exact (SetEntiy_calls_guard later c1 e Hc1).
Qed.

(** The component the constructor builds, set to entity 5. *)
Lemma SetEntiy_sets_once_witness :
  parrentEntity (Component_ctor (-1)) = nullptr
  /\ (let c1 := after (SetEntiy (Some 5)) (Component_ctor (-1)) in
      parrentEntity c1 = Some 5
      /\ index c1 = index (Component_ctor (-1))
      /\ (forall p : option nat, SetEntiy p c1 = (tt, c1))
      /\ (forall later : list (option nat), SetEntiy_calls later c1 = c1)).
Proof.
  split; [reflexivity|].
  apply (SetEntiy_sets_once (Component_ctor (-1)) 5). reflexivity.
Defined.

(** C8.  [Added], [Removed] and [Update] of the base class return nothing
    and leave the component, back-reference and index, as it was. *)
Theorem lifecycle_hooks_are_noops (c : Component) :
  Added c = (tt, c) /\ Removed c = (tt, c) /\ Update c = (tt, c)
  /\ parrentEntity (after Added c) = parrentEntity c
  /\ index (after Added c) = index c
  /\ parrentEntity (after Removed c) = parrentEntity c
  /\ index (after Removed c) = index c
  /\ parrentEntity (after Update c) = parrentEntity c
  /\ index (after Update c) = index c.
Proof. repeat split. Qed.

End ComponentSpec.

(** ** [Transform] *)

Module TransformSpec.

Import Transform.

Section WithMatrices.

Context `{MatrixModel}.

(** The unfolding of one call. *)
Lemma recalculate_step (fuel a : nat) (h : list Transform) :
  RecalculateWorldMatrix (S fuel) a h =
  match h !! a with
  | None => None
  | Some t =>
      if isDirty t then
        let local := XMMatrixAffine (scale t) (rotation t) (position t) in
        match parrent t with
        | None => Some (local, alter (cache local) a h, [a])
        | Some p =>
            match RecalculateWorldMatrix fuel p h with
            | None => None
            | Some (pm, h', visited) =>
                let world := XMMatrixMultiply local pm in
                Some (world, alter (cache world) a h', a :: visited)
            end
        end
      else Some (worldMatrix t, h, [a])
  end.
Proof. reflexivity. Qed.

(** A clean transform answers from its cache: nothing is written and no
    parent is asked. *)
Lemma clean_returns_cache (n a : nat) (h : list Transform) (t : Transform) :
  h !! a = Some t -> isDirty t = false ->
  RecalculateWorldMatrix (S n) a h = Some (worldMatrix t, h, [a]).
Proof. intros Ha Hclean. rewrite recalculate_step. now rewrite Ha, Hclean. Qed.

(** A query writes to transforms, it never adds or removes one. *)
Lemma recalculate_length (fuel a : nat) (h h' : list Transform)
    (m : XMFLOAT4X4) (visited : list nat) :
  RecalculateWorldMatrix fuel a h = Some (m, h', visited) ->
  length h' = length h.
Proof.
  revert a h' m visited.
  induction fuel as [|fuel IH]; intros a h' m visited; [discriminate|].
  rewrite recalculate_step.
  destruct (h !! a) as [t|]; [|discriminate].
  destruct (isDirty t).
  - cbv zeta. destruct (parrent t) as [p|].
    + destruct (RecalculateWorldMatrix fuel p h) as [[[pm h1] v1]|] eqn:Hrec;
        [|discriminate].
      intros [= <- <- <-]. rewrite length_alter. now apply (IH p h1 pm v1).
    + intros [= <- <- <-]. now rewrite length_alter.
  - now intros [= <- <- <-].
Qed.

(** What the query leaves at the address it was made on, for a transform
    that was dirty: the matrix it returns, and a clear flag. *)
Lemma recalculate_caches (fuel a : nat) (h h' : list Transform) (t : Transform)
    (m : XMFLOAT4X4) (visited : list nat) :
  h !! a = Some t -> isDirty t = true ->
  RecalculateWorldMatrix fuel a h = Some (m, h', visited) ->
  exists t', h' !! a = Some t' /\ isDirty t' = false /\ worldMatrix t' = m.
Proof.
  destruct fuel as [|fuel]; [discriminate|].
  intros Ha Hdirty. rewrite recalculate_step, Ha, Hdirty. cbv zeta.
  destruct (parrent t) as [p|].
  - destruct (RecalculateWorldMatrix fuel p h) as [[[pm h1] v1]|] eqn:Hrec;
      [|discriminate].
    intros [= <- <- <-].
    assert (Hlen : length h1 = length h)
      by now apply (recalculate_length fuel p h h1 pm v1).
    destruct (lookup_lt_is_Some_2 h1 a) as [t1 Ht1].
    { rewrite Hlen. now apply (lookup_lt_Some h a t). }
    exists (cache (XMMatrixMultiply
                     (XMMatrixAffine (scale t) (rotation t) (position t)) pm) t1).
    rewrite list_lookup_alter_eq, Ht1. now repeat split.
  - intros [= <- <- <-].
    exists (cache (XMMatrixAffine (scale t) (rotation t) (position t)) t).
    rewrite list_lookup_alter_eq, Ha. now repeat split.
Qed.

(** The query follows the parent chain from the front and stops at the
    first clean transform: the transforms it is made on are a prefix of
    the chain, and a chain that ends is walked with the fuel it takes. *)
Lemma recalculate_walks_chain (fuel a : nat) (h : list Transform) (chain : list nat) :
  parent_chain fuel a h = Some chain ->
  exists m h' visited,
    RecalculateWorldMatrix fuel a h = Some (m, h', visited)
    /\ visited `prefix_of` chain.
Proof.
  revert a chain.
  induction fuel as [|fuel IH]; intros a chain; [discriminate|].
  rewrite recalculate_step. cbn [parent_chain].
  destruct (h !! a) as [t|]; [|discriminate].
  destruct (parrent t) as [p|].
  - destruct (parent_chain fuel p h) as [rest|] eqn:Hchain; [|discriminate].
    intros [= <-].
    destruct (IH p rest Hchain) as (pm & h1 & v1 & Hrec & Hpre).
    rewrite Hrec. destruct (isDirty t).
    + eexists _, _, _. split; [reflexivity|]. now apply prefix_cons.
    + eexists _, _, _. split; [reflexivity|].
      apply prefix_cons, prefix_nil.
  - intros [= <-].
    destruct (isDirty t); eexists _, _, _; (split; [reflexivity|done]).
Qed.

(** The chain from a transform does not depend on the fuel that was
    enough to reach its end. *)
Lemma parent_chain_unique (f1 f2 a : nat) (h : list Transform)
    (c1 c2 : list nat) :
  parent_chain f1 a h = Some c1 -> parent_chain f2 a h = Some c2 -> c1 = c2.
Proof.
  revert f2 a c1 c2.
  induction f1 as [|f1 IH]; intros [|f2] a c1 c2; try discriminate.
  cbn [parent_chain]. destruct (h !! a) as [t|]; [|discriminate].
  destruct (parrent t) as [p|]; [|congruence].
  destruct (parent_chain f1 p h) as [r1|] eqn:H1; [|discriminate].
  destruct (parent_chain f2 p h) as [r2|] eqn:H2; [|discriminate].
  intros [= <-] [= <-]. f_equal. exact (IH f2 p r1 r2 H1 H2).
Qed.

(** From any transform on a chain, the rest of the chain is its own
    chain. *)
Lemma parent_chain_from_middle (fuel a : nat) (h : list Transform)
    (before after_b : list nat) (b : nat) :
  parent_chain fuel a h = Some (before ++ b :: after_b)%list ->
  exists fuel', parent_chain fuel' b h = Some (b :: after_b).
Proof.
  revert a before.
  induction fuel as [|fuel IH]; intros a before; [discriminate|].
  cbn [parent_chain]. destruct (h !! a) as [t|] eqn:Ha; [|discriminate].
  destruct (parrent t) as [p|] eqn:Hp.
  - destruct (parent_chain fuel p h) as [rest|] eqn:Hrest; [|discriminate].
    intros [= Heq]. destruct before as [|a' before].
    + injection Heq as -> ->. exists (S fuel). cbn [parent_chain].
      now rewrite Ha, Hp, Hrest.
    + injection Heq as _ ->. exact (IH p before Hrest).
  - intros [= Heq]. destruct before as [|a' before].
    + injection Heq as -> <-. exists 1. cbn [parent_chain].
      now rewrite Ha, Hp.
    + injection Heq as _ Heq. now destruct before.
Qed.

(** A chain that ends passes through no transform twice. *)
Lemma parent_chain_NoDup (fuel a : nat) (h : list Transform)
    (chain : list nat) :
  parent_chain fuel a h = Some chain -> NoDup chain.
Proof.
  revert a chain.
  induction fuel as [|fuel IH]; intros a chain; [discriminate|].
  intros Hchain. pose proof Hchain as Hfull. revert Hchain.
  cbn [parent_chain]. destruct (h !! a) as [t|]; [|discriminate].
  destruct (parrent t) as [p|].
  - destruct (parent_chain fuel p h) as [rest|] eqn:Hrest; [|discriminate].
    intros [= <-]. apply NoDup_cons. split; [|exact (IH p rest Hrest)].
    intros Hin. apply list_elem_of_split in Hin as (before & after_a & ->).
    destruct (parent_chain_from_middle fuel p h before after_a a Hrest)
      as (fuel' & Hsame).
    pose proof (parent_chain_unique _ _ a h _ _ Hsame Hfull) as Heq.
    apply (f_equal length) in Heq. cbn [length] in Heq.
    rewrite length_app in Heq. cbn [length] in Heq. lia.
  - intros [= <-]. apply NoDup_singleton.
Qed.

(** A query writes only to the transforms it is made on. *)
Lemma recalculate_frame (fuel : nat) :
  forall (a : nat) (h h' : list Transform) (m : XMFLOAT4X4)
         (visited : list nat),
  RecalculateWorldMatrix fuel a h = Some (m, h', visited) ->
  forall b, b ∉ visited -> h' !! b = h !! b.
Proof.
  induction fuel as [|fuel IH]; intros a h h' m visited; [discriminate|].
  rewrite recalculate_step.
  destruct (h !! a) as [t|]; [|discriminate].
  destruct (isDirty t).
  - cbv zeta. destruct (parrent t) as [p|].
    + destruct (RecalculateWorldMatrix fuel p h) as [[[pm hp] vp]|] eqn:Hrec;
        [|discriminate].
      intros [= <- <- <-] b Hb. apply not_elem_of_cons in Hb as [Hne Hb].
      rewrite list_lookup_alter_ne by congruence.
      exact (IH p h hp pm vp Hrec b Hb).
    + intros [= <- <- <-] b Hb. apply not_elem_of_cons in Hb as [Hne _].
      now rewrite list_lookup_alter_ne by congruence.
  - now intros [= <- <- <-].
Qed.

(** Caching the matrix a clean transform holds changes nothing. *)
Lemma cache_clean (t : Transform) :
  isDirty t = false -> cache (worldMatrix t) t = t.
Proof. destruct t as [p d pos rot scl w]. cbn. now intros ->. Qed.

(** On a chain that ends, every transform the query is made on is left
    as it was but for the cached matrix and the cleared flag. *)
Lemma recalculate_visited (fuel : nat) :
  forall (a : nat) (h h' : list Transform) (chain : list nat)
         (m : XMFLOAT4X4) (visited : list nat),
  parent_chain fuel a h = Some chain ->
  RecalculateWorldMatrix fuel a h = Some (m, h', visited) ->
  forall b, b ∈ visited ->
  exists tb w, h !! b = Some tb /\ h' !! b = Some (cache w tb).
Proof.
  induction fuel as [|fuel IH]; intros a h h' chain m visited; [discriminate|].
  intros Hchain. pose proof (parent_chain_NoDup _ _ _ _ Hchain) as Hnodup.
  revert Hchain. rewrite recalculate_step. cbn [parent_chain].
  destruct (h !! a) as [t|] eqn:Ha; [|discriminate].
  destruct (parrent t) as [p|].
  - destruct (parent_chain fuel p h) as [rest|] eqn:Hrest; [|discriminate].
    intros [= <-].
    destruct (recalculate_walks_chain fuel p h rest Hrest)
      as (pm & hp & vp & Hrec & Hpre).
    rewrite Hrec. destruct (isDirty t) eqn:Hdirty.
    + cbv zeta. intros [= <- <- <-] b Hb.
      assert (Hfresh : a ∉ vp).
      { intros Hin. apply NoDup_cons_1_1 in Hnodup. apply Hnodup.
        destruct Hpre as [more ->]. apply elem_of_app. now left. }
      apply elem_of_cons in Hb as [->|Hb].
      * exists t, (XMMatrixMultiply
                     (XMMatrixAffine (scale t) (rotation t) (position t)) pm).
        split; [exact Ha|].
        rewrite list_lookup_alter_eq,
          (recalculate_frame fuel p h hp pm vp Hrec a Hfresh), Ha.
        reflexivity.
      * destruct (IH p h hp rest pm vp Hrest Hrec b Hb) as (tb & w & Hb0 & Hb1).
        exists tb, w. split; [exact Hb0|].
        rewrite list_lookup_alter_ne; [exact Hb1|]. intros ->. now apply Hfresh.
    + intros [= <- <- <-] b Hb. apply list_elem_of_singleton in Hb as ->.
      exists t, (worldMatrix t). split; [exact Ha|].
      now rewrite (cache_clean t Hdirty).
  - intros [= <-]. destruct (isDirty t) eqn:Hdirty.
    + cbv zeta. intros [= <- <- <-] b Hb. apply list_elem_of_singleton in Hb as ->.
      exists t, (XMMatrixAffine (scale t) (rotation t) (position t)).
      split; [exact Ha|]. now rewrite list_lookup_alter_eq, Ha.
    + intros [= <- <- <-] b Hb. apply list_elem_of_singleton in Hb as ->.
      exists t, (worldMatrix t). split; [exact Ha|].
      now rewrite (cache_clean t Hdirty).
Qed.

(** C3.  For a transform [t] at address [a] whose parent chain ends:
    every setter leaves the dirty flag set; a query on a clean [t] returns
    the cached matrix, writes nothing and asks no parent; a query on any
    [t] returns, is made on a prefix of the parent chain and on no
    transform twice, writes to no transform it was not made on, and
    leaves every transform it was made on as it was but for the cached
    matrix and the cleared flag.  When [t] was dirty the matrix returned
    is the matrix of scale, rotation and position of [t], multiplied by
    what the same query returns on the parent when there is one; it is
    what the query leaves cached at [a], with the flag clear, on top of
    what the query on the parent has written; and the next query is
    answered from that cache. *)
Theorem world_matrix_is_cached_until_dirty
    (fuel a : nat) (h : list Transform) (t : Transform) (chain : list nat) :
  h !! a = Some t ->
  parent_chain fuel a h = Some chain ->
  (forall (v : XMFLOAT3) (p : option nat),
      isDirty (after (SetPosition v) t) = true
      /\ isDirty (after (SetRotation v) t) = true
      /\ isDirty (after (SetScale v) t) = true
      /\ isDirty (after (SetParrent p) t) = true)
  /\ (isDirty t = false ->
      forall n, GetWorldMatrix (S n) a h = Some (worldMatrix t, h, [a]))
  /\ (exists m h' visited,
        GetWorldMatrix fuel a h = Some (m, h', visited)
        /\ visited `prefix_of` chain
        /\ NoDup visited
        /\ (isDirty t = true ->
            (parrent t = nullptr ->
             m = XMMatrixAffine (scale t) (rotation t) (position t))
            /\ forall n, GetWorldMatrix (S n) a h' = Some (m, h', [a]))
        /\ length h' = length h
        /\ (forall b, b ∉ visited -> h' !! b = h !! b)
        /\ (forall b, b ∈ visited ->
            exists tb w, h !! b = Some tb /\ h' !! b = Some (cache w tb))
        /\ (isDirty t = false -> m = worldMatrix t /\ h' = h /\ visited = [a])
        /\ (isDirty t = true ->
            h' !! a = Some (cache m t)
            /\ (parrent t = nullptr ->
                h' = alter (cache m) a h /\ visited = [a])
            /\ (forall p, parrent t = Some p ->
                exists pm hp vp,
                  GetWorldMatrix (pred fuel) p h = Some (pm, hp, vp)
                  /\ m = XMMatrixMultiply
                           (XMMatrixAffine (scale t) (rotation t) (position t))
                           pm
                  /\ h' = alter (cache m) a hp
                  /\ visited = a :: vp))).
Proof.
  intros Ha Hchain. split; [|split].
  - intros v p. now repeat split.
  - intros Hclean n. now apply clean_returns_cache.
  - destruct (recalculate_walks_chain fuel a h chain Hchain)
      as (m & h' & visited & Hrec & Hpre).
    exists m, h', visited. split; [exact Hrec|]. split; [exact Hpre|].
    split.
    { destruct Hpre as [rest ->].
      apply parent_chain_NoDup in Hchain. now apply NoDup_app in Hchain. }
    split.
    { intros Hdirty. split.
      + intros Hroot. destruct fuel as [|fuel]; [discriminate|].
        unfold GetWorldMatrix in Hrec.
        rewrite recalculate_step, Ha, Hdirty, Hroot in Hrec.
        now injection Hrec as <- _ _.
      + intros n.
        destruct (recalculate_caches fuel a h h' t m visited Ha Hdirty Hrec)
          as (t' & Ht' & Hclean & <-).
        now apply clean_returns_cache. }
    split; [exact (recalculate_length fuel a h h' m visited Hrec)|].
    split; [exact (recalculate_frame fuel a h h' m visited Hrec)|].
    split; [exact (recalculate_visited fuel a h h' chain m visited Hchain Hrec)|].
    destruct fuel as [|fuel]; [discriminate|].
    pose proof Hrec as Hstep.
    rewrite recalculate_step, Ha in Hstep. cbn [pred].
    split.
    { intros Hclean. rewrite Hclean in Hstep. now injection Hstep as <- <- <-. }
    intros Hdirty. rewrite Hdirty in Hstep. cbv zeta in Hstep.
    split.
    { destruct (recalculate_visited (S fuel) a h h' chain m visited Hchain
                  Hrec a) as (ta & w & Ha0 & Ha1).
      - destruct (parrent t) as [p|].
        + destruct (RecalculateWorldMatrix fuel p h) as [[[pm hp] vp]|];
            [|discriminate].
          injection Hstep as _ _ <-. apply list_elem_of_here.
        + injection Hstep as _ _ <-. apply list_elem_of_here.
      - rewrite Ha in Ha0. injection Ha0 as <-.
        destruct (recalculate_caches (S fuel) a h h' t m visited Ha Hdirty Hrec)
          as (t' & Ht' & _ & Hw).
        rewrite Ha1 in Ht'. injection Ht' as <-. cbn in Hw. now rewrite <- Hw. }
    split.
    { intros Hroot. rewrite Hroot in Hstep. now injection Hstep as <- <- <-. }
    intros p Hp. rewrite Hp in Hstep.
    destruct (RecalculateWorldMatrix fuel p h) as [[[pm hp] vp]|] eqn:Hparent;
      [|discriminate].
    exists pm, hp, vp. injection Hstep as <- <- <-. now repeat split.
Qed.

End WithMatrices.

End TransformSpec.

(** ** [TestLoadLevel] *)

Module LoaderSpec.

Import Runtime Game.

Section WithEngine.

Context `{MatrixModel}.
Variable UNINDEXED : Z.
Variable Transform_ctor : Transform.Transform.

Local Abbreviation loop_body := (Game.loop_body UNINDEXED Transform_ctor).
Local Abbreviation load_model := (Game.load_model UNINDEXED Transform_ctor).
Local Abbreviation perform := (Game.perform UNINDEXED Transform_ctor).
Local Abbreviation run_lines := (Game.run_lines UNINDEXED Transform_ctor).
Local Abbreviation read_lines := (Game.read_lines UNINDEXED Transform_ctor).
Local Abbreviation TestLoadLevel := (Game.TestLoadLevel UNINDEXED Transform_ctor).
Local Abbreviation Entity_ctor := (Game.Entity_ctor Transform_ctor).
Local Abbreviation DrawnMesh_ctor := (Game.DrawnMesh_ctor UNINDEXED).

(** *** The loop body, branch by branch *)

(** The [if]/[else if] chain and the [switch] do what recognition by
    substring says. *)
Lemma loop_body_perform (buffer : string) (junk : XMFLOAT3) (l : Loader) :
  loop_body buffer junk l =
  perform (directive_by_substring (c_str buffer) (state l)) (c_str buffer) junk l.
Proof.
  unfold Game.loop_body, directive_by_substring, contains.
  destruct (non_null (strstr (c_str buffer) "arena")); [reflexivity|].
  destruct (non_null (strstr (c_str buffer) "pos")); [reflexivity|].
  destruct (non_null (strstr (c_str buffer) "rot")); [reflexivity|].
  destruct (non_null (strstr (c_str buffer) "scl")); [reflexivity|].
  cbn [negb]. destruct (Z.eqb (state l) 4); [|reflexivity].
  now destruct (non_null (strstr (c_str buffer) "model")).
Qed.

Lemma reaches_directive (f : field) (chars : string) (st : Z) :
  reaches f chars = true -> directive_by_substring chars st = Field f.
Proof.
  unfold reaches, directive_by_substring.
  destruct (contains chars "arena"); [discriminate|].
  destruct f, (contains chars "pos"), (contains chars "rot"),
    (contains chars "scl"); (discriminate || reflexivity).
Qed.

Lemma model_line_directive (chars : string) :
  is_model_line chars = true -> directive_by_substring chars 4 = Model.
Proof.
  unfold is_model_line, directive_by_substring.
  destruct (contains chars "arena"), (contains chars "pos"),
    (contains chars "rot"), (contains chars "scl"), (contains chars "model");
    (discriminate || reflexivity).
Qed.

(** Without a model line in state 4 the body returns, and the current
    entity, the vectors, and the size of both stores stay. *)
Lemma no_model_line_keeps_current (buffer : string) (junk : XMFLOAT3)
    (l : Loader) :
  is_model_line (c_str buffer) = false \/ state l <> 4%Z ->
  exists l',
    loop_body buffer junk l = Ok l'
    /\ currentEntity l' = currentEntity l
    /\ ents (game l') = ents (game l)
    /\ meshes (game l') = meshes (game l)
    /\ heap_Mesh (game l') = heap_Mesh (game l)
    /\ logged (game l') = logged (game l)
    /\ length (heap_Entity (game l')) = length (heap_Entity (game l)).
Proof.
  intros Hno. rewrite loop_body_perform.
  unfold directive_by_substring, is_model_line in *.
  assert (Hfield : forall f v,
    let l' := if_current (setter f v) l in
    currentEntity l' = currentEntity l
    /\ ents (game l') = ents (game l)
    /\ meshes (game l') = meshes (game l)
    /\ heap_Mesh (game l') = heap_Mesh (game l)
    /\ logged (game l') = logged (game l)
    /\ length (heap_Entity (game l')) = length (heap_Entity (game l))).
  { intros f v. unfold if_current. destruct (currentEntity l) as [e|] eqn:He.
    - cbn. rewrite length_alter. now rewrite He.
    - now rewrite He. }
  destruct (contains (c_str buffer) "arena").
  { eexists. split; [reflexivity|]. now repeat split. }
  destruct (contains (c_str buffer) "pos").
  { eexists. split; [reflexivity|]. apply (Hfield F_pos). }
  destruct (contains (c_str buffer) "rot").
  { eexists. split; [reflexivity|]. apply (Hfield F_rot). }
  destruct (contains (c_str buffer) "scl").
  { eexists. split; [reflexivity|]. apply (Hfield F_scl). }
  destruct (Z.eqb_spec (state l) 4) as [Hst|Hst].
  - destruct Hno as [Hno|Hno]; [|contradiction].
    rewrite andb_true_r in Hno. cbn in Hno. rewrite Hno.
    exists l. now repeat split.
  - exists l. now repeat split.
Qed.

(** *** The stream and the loop *)

(** A line that ends at its delimiter took at least that out of the
    input. *)
Lemma extract_line_delim_shrinks (room : nat) (input stored rest : string) :
  extract_line room input = (stored, rest, AtDelim) ->
  String.length rest < String.length input.
Proof.
  revert room stored. induction input as [|c input IH]; intros room stored.
  - cbn. discriminate.
  - cbn [extract_line]. destruct (Ascii.eqb c "010"%char).
    + intros [= _ <-]. cbn. lia.
    + destruct room as [|room]; [discriminate|].
      destruct (extract_line room input) as [[stored' rest'] why] eqn:Hrec.
      intros [= _ <- ->]. cbn. specialize (IH room stored' Hrec). lia.
Qed.

(** A [getline] that leaves the stream good has shortened what is left
    to read. *)
Lemma getline_good_shrinks (s s' : ifstream) (n : nat) (buffer : string) :
  getline s n = (buffer, s') -> good s' = true ->
  String.length (rdbuf s') < String.length (rdbuf s).
Proof.
  unfold getline.
  destruct (extract_line (n - 1) (rdbuf s)) as [[stored rest] why] eqn:Hext.
  destruct why; intros [= _ <-]; unfold good; cbn; intros Hgood;
    try discriminate.
  now apply (extract_line_delim_shrinks (n - 1) _ stored).
Qed.

(** With more fuel than there are characters left, the loop is the loop
    body run over the buffers of the stream, one after the other. *)
Lemma read_lines_run_lines (fuel : nat) (junk : nat -> XMFLOAT3) (n : nat)
    (s : ifstream) (l : Loader) :
  (good s = true -> String.length (rdbuf s) < fuel) ->
  read_lines fuel junk n s l = Some (run_lines junk n (buffers fuel s) l).
Proof.
  revert n s l. induction fuel as [|fuel IH]; intros n s l Hfuel.
  - cbn. destruct (good s); [|reflexivity]. specialize (Hfuel eq_refl). lia.
  - cbn [Game.read_lines buffers]. destruct (good s) eqn:Hgood; [|reflexivity].
    destruct (getline s 400) as [buffer s'] eqn:Hget.
    cbn [Game.run_lines bind].
    destruct (Game.loop_body UNINDEXED Transform_ctor buffer (junk n) l)
      as [l'|e]; [|reflexivity].
    cbn [bind]. apply IH. intros Hgood'.
    pose proof (getline_good_shrinks s s' 400 buffer Hget Hgood').
    specialize (Hfuel eq_refl). lia.
Qed.

(** [TestLoadLevel] returns: on a file that opens it is the loop body run
    over the file's buffers from the initial loader. *)
Lemma TestLoadLevel_run_lines (fs : filesystem) (junk : nat -> XMFLOAT3)
    (mapName contents : string) (g : MyDemoGame) :
  fs mapName = Some contents ->
  TestLoadLevel fs junk mapName g =
  Some (finish (run_lines junk 0 (lines_of contents) (initial g))).
Proof.
  intros Hopen. unfold Game.TestLoadLevel, open. rewrite Hopen.
  cbn [rdbuf]. rewrite read_lines_run_lines by (cbn; lia).
  unfold lines_of, initial, finish.
  now destruct (Game.run_lines _ _ _ _ _ _).
Qed.

(** [TestLoadLevel] always returns or throws: the fuel of the model is
    never what ends the loop. *)
Lemma TestLoadLevel_returns (fs : filesystem) (junk : nat -> XMFLOAT3)
    (mapName : string) (g : MyDemoGame) :
  exists r, TestLoadLevel fs junk mapName g = Some r.
Proof.
  destruct (fs mapName) as [contents|] eqn:Hopen.
  - exists (finish (run_lines junk 0 (lines_of contents) (initial g))).
    exact (TestLoadLevel_run_lines fs junk mapName contents g Hopen).
  - exists (Ok g). unfold Game.TestLoadLevel, open. now rewrite Hopen.
Qed.

Lemma run_lines_app (junk : nat -> XMFLOAT3) (n : nat) (bs bs' : list string)
    (l : Loader) :
  run_lines junk n (bs ++ bs') l =
  bind (run_lines junk n bs l) (run_lines junk (n + length bs) bs').
Proof.
  revert n l. induction bs as [|b bs IH]; intros n l.
  - cbn. now rewrite Nat.add_0_r.
  - cbn [app Game.run_lines length].
    destruct (Game.loop_body UNINDEXED Transform_ctor b (junk n) l) as [l'|e];
      [|reflexivity].
    cbn [bind]. rewrite IH. now rewrite Nat.add_succ_r.
Qed.

(** One iteration of the loop whose body returns. *)
Lemma read_lines_step (fuel : nat) (junk : nat -> XMFLOAT3) (n : nat)
    (s : ifstream) (l l' : Loader) :
  good s = true ->
  loop_body (fst (getline s 400)) (junk n) l = Ok l' ->
  read_lines (S fuel) junk n s l =
  read_lines fuel junk (S n) (snd (getline s 400)) l'.
Proof.
  intros Hgood Hbody. cbn [Game.read_lines]. rewrite Hgood.
  destruct (getline s 400) as [buffer s']. cbn [fst snd] in *.
  now rewrite Hbody.
Qed.

(** A run of lines none of which is a model line returns and keeps the
    current entity, both vectors and the size of the entity store. *)
Lemma run_lines_without_model (junk : nat -> XMFLOAT3) (bs : list string) :
  Forall (fun b => is_model_line (c_str b) = false) bs ->
  forall (n : nat) (l : Loader),
  exists l',
    run_lines junk n bs l = Ok l'
    /\ currentEntity l' = currentEntity l
    /\ ents (game l') = ents (game l)
    /\ meshes (game l') = meshes (game l)
    /\ length (heap_Entity (game l')) = length (heap_Entity (game l)).
Proof.
  induction 1 as [|b bs Hb _ IH]; intros n l.
  - exists l. now repeat split.
  - destruct (no_model_line_keeps_current b (junk n) l (or_introl Hb))
      as (l1 & Hbody & Hcur & Hents & Hmeshes & _ & _ & Hlen).
    destruct (IH (S n) l1) as (l2 & Hrun & Hcur2 & Hents2 & Hmeshes2 & Hlen2).
    exists l2. cbn [Game.run_lines]. rewrite Hbody. cbn [bind].
    split; [exact Hrun|]. repeat split; congruence.
Qed.

(** A line that reaches the branch of a field, with a current entity:
    the setter of the field is called on that entity's transform with
    what [sscanf_s] stored over the uninitialised local, and nothing else
    changes. *)
Lemma field_line_sets (f : field) (buffer : string) (junk : XMFLOAT3)
    (l : Loader) (e : nat) (ent : Entity) :
  currentEntity l = Some e ->
  heap_Entity (game l) !! e = Some ent ->
  reaches f (c_str buffer) = true ->
  let v := Scanf.store3
             (snd (Scanf.sscanf_s (c_str buffer) (format f))) junk in
  exists l',
    loop_body buffer junk l = Ok l'
    /\ heap_Entity (game l') !! e = Some (after (on_transform (setter f v)) ent)
    /\ (forall e', e' <> e ->
          heap_Entity (game l') !! e' = heap_Entity (game l) !! e')
    /\ currentEntity l' = Some e
    /\ state l' = state l
    /\ ents (game l') = ents (game l)
    /\ meshes (game l') = meshes (game l)
    /\ heap_Mesh (game l') = heap_Mesh (game l).
Proof.
  intros Hcur Hent Hreach v.
  rewrite loop_body_perform, (reaches_directive f _ _ Hreach).
  cbn [Game.perform]. fold v. unfold if_current. rewrite Hcur.
  eexists. split; [reflexivity|]. cbn.
  split; [now rewrite list_lookup_alter_eq, Hent|].
  split; [|now repeat split].
  intros e' Hne. now rewrite list_lookup_alter_ne.
Qed.

(** A model line in state 4 that is long enough for [substr(6, ...)]:
    the body logs the path, builds the mesh and the entity, makes the
    entity the current one and appends both to their vectors. *)
Lemma model_line_creates (buffer : string) (junk : XMFLOAT3) (l : Loader) :
  state l = 4%Z ->
  is_model_line (c_str buffer) = true ->
  6 <= String.length (c_str buffer) ->
  let g := game l in
  let e := length (heap_Entity g) in
  let m := length (heap_Mesh g) in
  let path := "Assets/Models/"
              ++ String.substring 6 (String.length (c_str buffer)) (c_str buffer)
              ++ ".obj" in
  loop_body buffer junk l =
  Ok {| game :=
          {| ents := ents g ++ [e];
             meshes := meshes g ++ [m];
             render := render g;
             basicMaterial := basicMaterial g;
             heap_Entity :=
               heap_Entity g ++
               [ {| transform := Transform_ctor;
                    components :=
                      [ {| base := {| Component.parrentEntity := Some e;
                                      Component.index := UNINDEXED |};
                           dm_render := render g;
                           dm_mesh := m;
                           dm_material := basicMaterial g |} ] |} ];
             heap_Mesh := heap_Mesh g ++ [Mesh_file path];
             logged := logged g ++ [path] |};
        state := 4;
        currentEntity := Some e |}.
Proof.
  intros Hstate Hmodel Hlen g e m path.
  rewrite loop_body_perform, Hstate, (model_line_directive _ Hmodel).
  cbn [Game.perform]. unfold Game.load_model, substr.
  destruct (Nat.leb_spec 6 (String.length (c_str buffer))) as [_|Hlt]; [|lia].
  cbn [bind]. fold path. unfold new_Mesh, Game.new_Entity, LogText.
  cbn [heap_Mesh heap_Entity ents meshes render basicMaterial logged].
  unfold call_Entity, ents_push_back, meshes_push_back. cbn.
  rewrite Hstate. fold g e m. do 3 f_equal.
  pose proof (alter_app_r
                (after (AddComponent e
                          (DrawnMesh_ctor (render g) m (basicMaterial g))))
                (heap_Entity g) [Entity_ctor] 0) as Halter.
  rewrite Nat.add_0_r in Halter. fold e in Halter. now rewrite Halter.
Qed.

(** *** The claims about the loader *)

(** C1, as amended.  A model line (a line with [model] in it and none of
    [arena], [pos], [rot], [scl]) of six characters or more that is read
    in state 4 creates an entity with one drawn-mesh component at a fresh
    address, appends it to [ents] and its mesh to [meshes], and makes it
    the current entity whatever the current entity was.  Over every run
    of lines without a model line after it that entity stays the current
    one, and a line that then reaches the branch of [pos], [rot] or [scl]
    calls [SetPosition], [SetRotation] or [SetScale] on its transform. *)
Theorem model_line_makes_current_entity
    (buffer : string) (junk0 : XMFLOAT3) (l : Loader)
    (junk : nat -> XMFLOAT3) (n : nat) (between : list string) :
  state l = 4%Z ->
  is_model_line (c_str buffer) = true ->
  6 <= String.length (c_str buffer) ->
  Forall (fun b => is_model_line (c_str b) = false) between ->
  let e := length (heap_Entity (game l)) in
  let m := length (heap_Mesh (game l)) in
  exists l1 l2,
    loop_body buffer junk0 l = Ok l1
    /\ currentEntity l1 = Some e
    /\ ents (game l1) = (ents (game l) ++ [e])%list
    /\ meshes (game l1) = (meshes (game l) ++ [m])%list
    /\ heap_Entity (game l1) !! e =
       Some {| transform := Transform_ctor;
               components :=
                 [ {| base := {| Component.parrentEntity := Some e;
                                 Component.index := UNINDEXED |};
                      dm_render := render (game l);
                      dm_mesh := m;
                      dm_material := basicMaterial (game l) |} ] |}
    /\ run_lines junk n between l1 = Ok l2
    /\ currentEntity l2 = Some e
    /\ ents (game l2) = ents (game l1)
    /\ forall (f : field) (line : string) (jv : XMFLOAT3),
         reaches f (c_str line) = true ->
         exists ent l3,
           heap_Entity (game l2) !! e = Some ent
           /\ loop_body line jv l2 = Ok l3
           /\ heap_Entity (game l3) !! e =
              Some (after
                      (on_transform
                         (setter f
                            (Scanf.store3
                               (snd (Scanf.sscanf_s (c_str line) (format f)))
                               jv)))
                      ent)
           /\ currentEntity l3 = Some e.
Proof.
  intros Hstate Hmodel Hlen Hbetween e m.
  pose proof (model_line_creates buffer junk0 l Hstate Hmodel Hlen) as Hcreate.
  cbv zeta in Hcreate. fold e m in Hcreate.
  match type of Hcreate with _ = Ok ?x => set (l1 := x) in * end.
  destruct (run_lines_without_model junk between Hbetween n l1)
    as (l2 & Hrun & Hcur2 & Hents2 & _ & Hlen2).
  exists l1, l2.
  split; [exact Hcreate|]. split; [reflexivity|]. split; [reflexivity|].
  split; [reflexivity|].
  split.
  { subst l1. cbn [game heap_Entity]. fold e.
    now rewrite lookup_app_r, Nat.sub_diag by (subst e; lia). }
  split; [exact Hrun|]. split; [exact Hcur2|]. split; [exact Hents2|].
  intros f line jv Hreach.
  destruct (lookup_lt_is_Some_2 (heap_Entity (game l2)) e) as [ent Hent].
  { rewrite Hlen2. subst l1. cbn [game heap_Entity]. rewrite length_app.
    cbn. subst e. lia. }
  destruct (field_line_sets f line jv l2 e ent Hcur2 Hent Hreach)
    as (l3 & Hbody & Hset & _ & Hcur3 & _).
  exists ent, l3. now repeat split.
Qed.

(** C4.  When the file cannot be opened, [TestLoadLevel] returns without
    an exception and the game it returns is the game it was given: the
    entity list, the mesh list and every object of both stores. *)
Theorem unopened_file_changes_nothing (fs : filesystem)
    (junk : nat -> XMFLOAT3) (mapName : string) (g : MyDemoGame) :
  fs mapName = None ->
  TestLoadLevel fs junk mapName g = Some (Ok g).
Proof.
  intros Hopen. unfold Game.TestLoadLevel, open. now rewrite Hopen.
Qed.

(** C5, as amended.  A line in which none of the five keywords occurs
    anywhere, not even inside a longer word, is ignored: the loop body
    returns the loader as it was (game, state and current entity),
    nothing is logged or thrown, and the loop goes on to the next line
    from there. *)
Theorem line_without_keyword_is_ignored (buffer : string) (junk : XMFLOAT3)
    (l : Loader) :
  contains (c_str buffer) "pos" = false ->
  contains (c_str buffer) "rot" = false ->
  contains (c_str buffer) "scl" = false ->
  contains (c_str buffer) "model" = false ->
  contains (c_str buffer) "arena" = false ->
  loop_body buffer junk l = Ok l
  /\ forall (fuel : nat) (jk : nat -> XMFLOAT3) (n : nat) (s : ifstream),
       good s = true -> fst (getline s 400) = buffer ->
       read_lines (S fuel) jk n s l =
       read_lines fuel jk (S n) (snd (getline s 400)) l.
Proof.
  intros Hpos Hrot Hscl Hmodel Harena.
  assert (Hbody : forall j, loop_body buffer j l = Ok l).
  { intros j. rewrite loop_body_perform. unfold directive_by_substring.
    rewrite Harena, Hpos, Hrot, Hscl, Hmodel, andb_false_r. reflexivity. }
  split; [apply Hbody|].
  intros fuel jk n s Hgood Hline. apply read_lines_step; [exact Hgood|].
  rewrite Hline. apply Hbody.
Qed.

(** C6, as amended.  Recognition is by substring and line by line: on
    every line the loop body does what [directive_by_substring] names.
    The line is taken for [arena] exactly when [arena] occurs anywhere in
    it; for [pos], [rot] or [scl] exactly when [arena] does not occur and
    the keyword is the first of the three, in this order, to occur; for
    [model] exactly when [model] occurs, none of the other four does and
    the state is 4.  A line in which none of the five keywords occurs is
    never taken for a directive. *)
Theorem directives_are_recognised_by_substring (buffer : string)
    (junk : XMFLOAT3) (l : Loader) :
  let chars := c_str buffer in
  let d := directive_by_substring chars (state l) in
  loop_body buffer junk l = perform d chars junk l
  /\ (d = Arena <-> contains chars "arena" = true)
  /\ (forall f : field, d = Field f <-> reaches f chars = true)
  /\ (d = Model <-> state l = 4%Z /\ is_model_line chars = true)
  /\ (contains chars "arena" || contains chars "pos" || contains chars "rot"
      || contains chars "scl" || contains chars "model" = false ->
      d = Unrecognised).
Proof.
  intros chars d. split; [apply loop_body_perform|].
  subst d. unfold directive_by_substring, reaches, is_model_line.
  destruct (Z.eqb_spec (state l) 4) as [Hst|Hst];
    destruct (contains chars "arena"), (contains chars "pos"),
      (contains chars "rot"), (contains chars "scl"),
      (contains chars "model"); cbn;
    (split; [split; (reflexivity || discriminate)|]);
    (split; [intros []; split; (reflexivity || discriminate)|]);
    (split; [split; [try discriminate; now split
                    | intros [Hfour Hline]; try discriminate;
                      try contradiction; reflexivity]
            | try discriminate; reflexivity]).
Qed.


(** C9.  When no line before the [k]-th line of the file has [arena] in
    it, the loader that reaches the [k]-th line is the initial one, and
    a [k]-th line with [model] in it gives back the game as it was: no
    entity, no mesh.  The load then goes on over the rest of the file
    from that game. *)
Theorem model_line_before_arena_adds_nothing (fs : filesystem)
    (junk : nat -> XMFLOAT3) (mapName contents : string) (g : MyDemoGame)
    (k : nat) (b : string) :
  fs mapName = Some contents ->
  lines_of contents !! k = Some b ->
  (forall j p, j < k -> lines_of contents !! j = Some p ->
               contains (c_str p) "arena" = false) ->
  contains (c_str b) "model" = true ->
  run_lines junk 0 (take k (lines_of contents)) (initial g) = Ok (initial g)
  /\ exists l,
       loop_body b (junk k) (initial g) = Ok l
       /\ game l = g
       /\ currentEntity l = nullptr
       /\ TestLoadLevel fs junk mapName g =
          Some (finish (run_lines junk (S k) (drop (S k) (lines_of contents)) l)).
Proof.
  intros Hopen Hk Hpre Hmodel.
  assert (Hquiet : forall (bs : list string) (n : nat),
            Forall (fun p => contains (c_str p) "arena" = false) bs ->
            run_lines junk n bs (initial g) = Ok (initial g)).
  { induction bs as [|p bs IH]; intros n Hall; [reflexivity|].
    inversion Hall as [|p' bs' Hp Hbs]; subst.
    cbn [Game.run_lines]. rewrite loop_body_perform.
    unfold directive_by_substring. rewrite Hp.
    cbn [initial state Z.eqb andb].
    destruct (contains (c_str p) "pos"); [cbn; now apply IH|].
    destruct (contains (c_str p) "rot"); [cbn; now apply IH|].
    destruct (contains (c_str p) "scl"); cbn; now apply IH. }
  assert (Htake : Forall (fun p => contains (c_str p) "arena" = false)
                    (take k (lines_of contents))).
  { apply Forall_lookup. intros j p Hj.
    apply lookup_take_Some in Hj as [Hj Hlt]. now apply (Hpre j p). }
  assert (Hbody : exists l, loop_body b (junk k) (initial g) = Ok l
                            /\ game l = g /\ currentEntity l = nullptr).
  { rewrite loop_body_perform. unfold directive_by_substring.
    cbn [initial state Z.eqb andb].
    destruct (contains (c_str b) "arena"); [eexists; now repeat split|].
    destruct (contains (c_str b) "pos"); [eexists; now repeat split|].
    destruct (contains (c_str b) "rot"); [eexists; now repeat split|].
    destruct (contains (c_str b) "scl"); eexists; now repeat split. }
  split; [now apply Hquiet|].
  destruct Hbody as (l & Hbody & Hgame & Hcur).
  exists l. repeat split; try assumption.
  rewrite (TestLoadLevel_run_lines fs junk mapName contents g Hopen).
  rewrite <- (take_drop_middle (lines_of contents) k b Hk) at 1.
  rewrite run_lines_app, (Hquiet _ 0 Htake). cbn [bind Game.run_lines].
  rewrite length_take_le by (apply Nat.lt_le_incl, (lookup_lt_Some _ _ _ Hk)).
  cbn [Nat.add]. now rewrite Hbody.
Qed.

(** C10.  With no current entity, a line with [pos], [rot] or [scl] in it
    modifies nothing: the body returns, the game and the null current
    entity are as before (the whole loader is, unless [arena] occurs in
    the line too), and the loop goes on to the next line. *)
Theorem field_line_without_entity_is_skipped (buffer : string)
    (junk : XMFLOAT3) (l : Loader) :
  currentEntity l = nullptr ->
  contains (c_str buffer) "pos" || contains (c_str buffer) "rot"
  || contains (c_str buffer) "scl" = true ->
  (forall (f : field) (v : XMFLOAT3), if_current (setter f v) l = l)
  /\ exists l',
       loop_body buffer junk l = Ok l'
       /\ game l' = game l
       /\ currentEntity l' = nullptr
       /\ (contains (c_str buffer) "arena" = false -> l' = l)
       /\ forall (fuel : nat) (jk : nat -> XMFLOAT3) (n : nat) (s : ifstream),
            good s = true -> fst (getline s 400) = buffer -> jk n = junk ->
            read_lines (S fuel) jk n s l =
            read_lines fuel jk (S n) (snd (getline s 400)) l'.
Proof.
  intros Hcur Hfield.
  assert (Hskip : forall (f : field) (v : XMFLOAT3), if_current (setter f v) l = l).
  { intros f v. unfold if_current. now rewrite Hcur. }
  split; [exact Hskip|].
  assert (Hbody : exists l', loop_body buffer junk l = Ok l'
            /\ game l' = game l /\ currentEntity l' = nullptr
            /\ (contains (c_str buffer) "arena" = false -> l' = l)).
  { rewrite loop_body_perform. unfold directive_by_substring.
    destruct (contains (c_str buffer) "arena").
    { eexists. split; [reflexivity|]. cbn. repeat split; [exact Hcur|discriminate]. }
    destruct (contains (c_str buffer) "pos").
    { exists l. cbn [Game.perform]. rewrite (Hskip F_pos). now repeat split. }
    destruct (contains (c_str buffer) "rot").
    { exists l. cbn [Game.perform]. rewrite (Hskip F_rot). now repeat split. }
    destruct (contains (c_str buffer) "scl"); [|discriminate].
    exists l. cbn [Game.perform]. rewrite (Hskip F_scl). now repeat split. }
  destruct Hbody as (l' & Hbody & Hgame & Hcur' & Hsame).
  exists l'. repeat split; try assumption.
  intros fuel jk n s Hgood Hline Hjunk. apply read_lines_step; [exact Hgood|].
  now rewrite Hline, Hjunk.
Qed.

End WithEngine.

End LoaderSpec.

(** ** The properties at concrete inputs *)

Module Examples.

Import Runtime Game Sample.

(** C1, as stated, fails.  A file whose only line is [model cube] is
    loaded without an entity or a mesh being made: no [arena] line came
    before.  And after an [arena] line the line [model compost] makes
    none either: [pos] occurs in it, so it is taken for a [pos] line. *)
Lemma model_line_need_not_create :
  contains "model cube" "model" = true
  /\ load ("model cube" ++ LF) empty_game = Some (Ok empty_game)
  /\ contains "model compost" "model" = true
  /\ load ("arena" ++ LF ++ "model compost" ++ LF) empty_game
     = Some (Ok empty_game).
Proof.
  split; [vm_compute; reflexivity|].
  split; [vm_compute; reflexivity|].
  split; vm_compute; reflexivity.
Qed.

Lemma model_line_makes_current_entity_witness :
  state in_arena = 4%Z
  /\ is_model_line (c_str "model cube") = true
  /\ 6 <= String.length (c_str "model cube")
  /\ Forall (fun b => is_model_line (c_str b) = false) ["# the cube"; ""]
  /\ exists l1 l2,
       body "model cube" in_arena = Ok l1
       /\ currentEntity l1 = Some 0
       /\ Game.run_lines (-1) fresh_transform junk789 1 ["# the cube"; ""] l1
          = Ok l2
       /\ currentEntity l2 = Some 0.
Proof.
  assert (H1 : state in_arena = 4%Z) by reflexivity.
  assert (H2 : is_model_line (c_str "model cube") = true) by reflexivity.
  assert (H3 : 6 <= String.length (c_str "model cube")) by (vm_compute; lia).
  assert (H4 : Forall (fun b => is_model_line (c_str b) = false)
                 ["# the cube"; ""]) by (repeat constructor).
  repeat (split; [assumption|]).
  destruct (LoaderSpec.model_line_makes_current_entity (-1) fresh_transform
              "model cube" (vec 7 8 9) in_arena junk789 1 ["# the cube"; ""]
              H1 H2 H3 H4)
    as (l1 & l2 & Hbody & Hcur & _ & _ & _ & Hrun & Hcur2 & _).
  exists l1, l2. repeat split; assumption.
Defined.

Lemma world_matrix_is_cached_until_dirty_witness :
  two_transforms !! 0 = Some child_transform
  /\ Transform.parent_chain 2 0 two_transforms = Some [0; 1]
  /\ exists m h' visited,
       Transform.GetWorldMatrix 2 0 two_transforms = Some (m, h', visited)
       /\ visited `prefix_of` [0; 1]
       /\ NoDup visited
       /\ h' !! 0 = Some (Transform.cache m child_transform).
Proof.
  assert (H1 : two_transforms !! 0 = Some child_transform) by reflexivity.
  assert (H2 : Transform.parent_chain 2 0 two_transforms = Some [0; 1])
    by reflexivity.
  repeat (split; [assumption|]).
  destruct (TransformSpec.world_matrix_is_cached_until_dirty 2 0
              two_transforms _ [0; 1] H1 H2)
    as (_ & _ & m & h' & visited & Hquery & Hprefix & Hnodup & _ & _ & _ & _
        & _ & Hdirty).
  exists m, h', visited. repeat split; try assumption.
  exact (proj1 (Hdirty eq_refl)).
Defined.

Lemma unopened_file_changes_nothing_witness :
  one_file "level.txt" "arena" "other.txt" = None
  /\ Game.TestLoadLevel (-1) fresh_transform (one_file "level.txt" "arena")
       junk789 "other.txt" empty_game = Some (Ok empty_game).
Proof.
  split; [reflexivity|].
  apply (LoaderSpec.unopened_file_changes_nothing (-1) fresh_transform).
  reflexivity.
Defined.

Lemma line_without_keyword_is_ignored_witness :
  contains (c_str "# the cube") "pos" = false
  /\ body "# the cube" with_cube = Ok with_cube.
Proof.
  split; [reflexivity|].
  apply (LoaderSpec.line_without_keyword_is_ignored (-1) fresh_transform
           "# the cube" (vec 7 8 9) with_cube); reflexivity.
Defined.

(** C6, as stated, fails.  The leading token of [# reposition] is no
    keyword, so by token the line is no directive and entity 0, the
    current one, keeps its position (0, 0, 0); the loop body finds [pos]
    in the line, scans nothing, and sets the position to what the
    uninitialised local held, (7, 8, 9).  The leading token of
    [model cube] is [model], so by token the line makes entity 0; the
    loop body, in state 0, makes none. *)
Lemma first_token_does_not_decide :
  first_token "# reposition" = "#"
  /\ directive_by_token "# reposition" = Unrecognised
  /\ position_after 0
       (Game.perform (-1) fresh_transform (directive_by_token "# reposition")
          "# reposition" (vec 7 8 9) with_cube) = Some (vec 0 0 0)
  /\ position_after 0 (body "# reposition" with_cube) = Some (vec 7 8 9)
  /\ directive_by_token "model cube" = Model
  /\ ents_after
       (Game.perform (-1) fresh_transform (directive_by_token "model cube")
          "model cube" (vec 7 8 9) (initial empty_game)) = Some [0]
  /\ ents_after (body "model cube" (initial empty_game)) = Some [].
Proof.
  split; [vm_compute; reflexivity|].
  split; [vm_compute; reflexivity|].
  split; [vm_compute; reflexivity|].
  split; [vm_compute; reflexivity|].
  split; [vm_compute; reflexivity|].
  split; vm_compute; reflexivity.
Qed.

(** C5, as stated, fails.  The line [# position of the cube] has the form
    of no directive: its leading token is no keyword and none of the
    three formats scans a value from it.  Yet with entity 0 current the
    loop body does not ignore it: [pos] occurs in it, so [SetPosition] is
    called and the position of entity 0 goes from (0, 0, 0) to what the
    uninitialised local held, (7, 8, 9). *)
Lemma line_of_no_directive_is_not_ignored :
  directive_by_token "# position of the cube" = Unrecognised
  /\ fst (Scanf.sscanf_s "# position of the cube" (format F_pos)) = 0%Z
  /\ fst (Scanf.sscanf_s "# position of the cube" (format F_rot)) = 0%Z
  /\ fst (Scanf.sscanf_s "# position of the cube" (format F_scl)) = 0%Z
  /\ position_after 0 (Ok with_cube) = Some (vec 0 0 0)
  /\ position_after 0 (body "# position of the cube" with_cube)
     = Some (vec 7 8 9).
Proof.
  split; [vm_compute; reflexivity|].
  split; [vm_compute; reflexivity|].
  split; [vm_compute; reflexivity|].
  split; [vm_compute; reflexivity|].
  split; vm_compute; reflexivity.
Qed.


Lemma model_line_before_arena_adds_nothing_witness :
  one_file "level.txt" ("model cube" ++ LF ++ "arena" ++ LF) "level.txt"
  = Some ("model cube" ++ LF ++ "arena" ++ LF)
  /\ lines_of ("model cube" ++ LF ++ "arena" ++ LF) !! 0 = Some "model cube"
  /\ contains (c_str "model cube") "model" = true
  /\ exists l, body "model cube" (initial empty_game) = Ok l
               /\ game l = empty_game.
Proof.
  assert (H1 : one_file "level.txt" ("model cube" ++ LF ++ "arena" ++ LF)
                 "level.txt" = Some ("model cube" ++ LF ++ "arena" ++ LF))
    by reflexivity.
  assert (H2 : lines_of ("model cube" ++ LF ++ "arena" ++ LF) !! 0
               = Some "model cube") by (vm_compute; reflexivity).
  assert (H3 : contains (c_str "model cube") "model" = true) by reflexivity.
  repeat (split; [assumption|]).
  destruct (LoaderSpec.model_line_before_arena_adds_nothing (-1)
              fresh_transform _ junk789 "level.txt" _ empty_game 0
              "model cube" H1 H2) as (_ & l & Hbody & Hgame & _).
  - intros j p Hj. lia.
  - exact H3.
  - exists l. split; assumption.
Defined.

Lemma field_line_without_entity_is_skipped_witness :
  currentEntity in_arena = nullptr
  /\ contains (c_str "pos 1 2 3") "pos" = true
  /\ exists l', body "pos 1 2 3" in_arena = Ok l' /\ game l' = game in_arena.
Proof.
  assert (H1 : currentEntity in_arena = nullptr) by reflexivity.
  repeat (split; [assumption || reflexivity|]).
  destruct (LoaderSpec.field_line_without_entity_is_skipped (-1)
              fresh_transform "pos 1 2 3" (vec 7 8 9) in_arena H1 eq_refl)
    as (_ & l' & Hbody & Hgame & _).
  exists l'. split; assumption.
Defined.

End Examples.

(** ** More about [TestLoadLevel] *)

Module LoaderFacts.

Import Runtime Game Scene.

Section WithEngine.

Context `{MatrixModel}.
Variable UNINDEXED : Z.
Variable Transform_ctor : Transform.Transform.

Local Abbreviation loop_body := (Game.loop_body UNINDEXED Transform_ctor).
Local Abbreviation run_lines := (Game.run_lines UNINDEXED Transform_ctor).
Local Abbreviation TestLoadLevel := (Game.TestLoadLevel UNINDEXED Transform_ctor).

(** *** One line *)

(** A prefix is no longer than the string, and is the string when it
    is as long. *)
Lemma prefix_length (a b : string) :
  String.prefix a b = true ->
  String.length a <= String.length b
  /\ (String.length a = String.length b -> b = a).
Proof.
  revert b. induction a as [|c a IH]; intros [|d b]; cbn [String.prefix].
  - now split.
  - split; [cbn; lia|discriminate].
  - discriminate.
  - destruct (ascii_dec c d) as [->|_]; [|discriminate].
    intros Hpre. destruct (IH b Hpre) as [Hle Heq]. cbn [String.length].
    split; [lia|]. intros Hlen. f_equal. apply Heq. lia.
Qed.

(** A keyword occurs only in lines that are at least as long, and a line
    of the same length is the keyword. *)
Lemma contains_length (chars keyword : string) :
  contains chars keyword = true ->
  String.length keyword <= String.length chars
  /\ (String.length keyword = String.length chars -> chars = keyword).
Proof.
  unfold contains. induction chars as [|c chars IH]; cbn [strstr].
  - destruct (String.prefix keyword "") eqn:Hpre; [|discriminate].
    intros _. now apply prefix_length.
  - destruct (String.prefix keyword (String c chars)) eqn:Hpre.
    + intros _. now apply prefix_length.
    + intros Hrest. destruct (IH Hrest) as [Hle _]. cbn [String.length].
      split; lia.
Qed.

(** The only C string of fewer than six characters with [model] in it. *)
Lemma short_model_line (chars : string) :
  contains chars "model" = true -> String.length chars < 6 ->
  chars = "model".
Proof.
  intros Hmodel Hshort.
  destruct (contains_length chars "model" Hmodel) as [Hle Heq].
  apply Heq. cbn [String.length] in *. lia.
Qed.

(** What the body does with a line, case by case: an [arena] line sets
    the state, a field line calls a setter on the current entity, a
    model line in state 4 builds an entity or throws, and any other line
    does nothing. *)
Lemma loop_body_cases (buffer : string) (junk : XMFLOAT3) (l : Loader) :
  let chars := c_str buffer in
  (contains chars "arena" = true
   /\ loop_body buffer junk l =
      Ok {| game := game l; state := 4; currentEntity := currentEntity l |})
  \/ (contains chars "arena" = false /\ is_model_line chars = false
      /\ exists f v, loop_body buffer junk l = Ok (if_current (setter f v) l))
  \/ (contains chars "arena" = false /\ is_model_line chars = false
      /\ loop_body buffer junk l = Ok l)
  \/ (contains chars "arena" = false /\ is_model_line chars = true
      /\ state l <> 4%Z /\ loop_body buffer junk l = Ok l)
  \/ (contains chars "arena" = false /\ is_model_line chars = true
      /\ state l = 4%Z).
Proof.
  intros chars. rewrite LoaderSpec.loop_body_perform. fold chars.
  unfold directive_by_substring, is_model_line.
  destruct (contains chars "arena"); [left; now split|].
  right.
  destruct (contains chars "pos").
  { left. rewrite andb_false_r. split; [reflexivity|]. split; [reflexivity|].
    eexists F_pos, _. reflexivity. }
  destruct (contains chars "rot").
  { left. rewrite andb_false_r. split; [reflexivity|]. split; [reflexivity|].
    eexists F_rot, _. reflexivity. }
  destruct (contains chars "scl").
  { left. rewrite andb_false_r. split; [reflexivity|]. split; [reflexivity|].
    eexists F_scl, _. reflexivity. }
  right. destruct (contains chars "model").
  - right. destruct (Z.eqb_spec (state l) 4) as [Hst|Hst].
    + right. now repeat split.
    + left. now repeat split.
  - left. rewrite andb_false_r. now repeat split.
Qed.

(** In state 4 a model line too short for [substr(6, ...)] throws. *)
Lemma short_model_line_throws (buffer : string) (junk : XMFLOAT3) (l : Loader) :
  state l = 4%Z -> is_model_line (c_str buffer) = true ->
  String.length (c_str buffer) < 6 ->
  loop_body buffer junk l = Throw out_of_range.
Proof.
  intros Hstate Hmodel Hshort.
  rewrite LoaderSpec.loop_body_perform, Hstate,
    (LoaderSpec.model_line_directive _ Hmodel).
  cbn [Game.perform]. unfold Game.load_model, substr.
  destruct (Nat.leb_spec 6 (String.length (c_str buffer))) as [Hle|_]; [lia|].
  reflexivity.
Qed.

(** *** What the loader has built so far *)

Lemma tracks_field (g0 : MyDemoGame) (paths : list string) (l : Loader)
    (f : field) (v : XMFLOAT3) :
  tracks g0 paths l -> tracks g0 paths (if_current (setter f v) l).
Proof.
  intros (Happ & Hlog & Hcur). unfold if_current.
  destruct (currentEntity l) as [e|] eqn:He; [|unfold tracks; now rewrite He].
  destruct Hcur as [Hlo Hhi].
  destruct Happ as (Hents & Hmeshes & Hheap & Htake & Hlen & Hrender & Hmat).
  unfold tracks, appended. cbn. rewrite He, length_alter, take_alter_ge by lia.
  now repeat split.
Qed.

Lemma tracks_model (g0 : MyDemoGame) (paths : list string) (l : Loader)
    (buffer : string) (junk : XMFLOAT3) :
  tracks g0 paths l ->
  state l = 4%Z -> is_model_line (c_str buffer) = true ->
  6 <= String.length (c_str buffer) ->
  exists l',
    loop_body buffer junk l = Ok l'
    /\ state l' = 4%Z
    /\ tracks g0 (paths ++ [model_path (c_str buffer)]) l'.
Proof.
  intros (Happ & Hlog & _) Hstate Hmodel Hlen.
  destruct Happ as (Hents & Hmeshes & Hheap & Htake & Hsize & Hrender & Hmat).
  rewrite length_fmap in *.
  eexists. split; [exact (LoaderSpec.model_line_creates UNINDEXED
                            Transform_ctor buffer junk l Hstate Hmodel Hlen)|].
  split; [reflexivity|].
  unfold tracks, appended. cbn [game currentEntity ents meshes heap_Mesh
                                  heap_Entity render basicMaterial logged].
  rewrite fmap_app, length_app, length_fmap, !length_app. cbn [length fmap list_fmap].
  rewrite Nat.add_1_r, !seq_S, Hents, Hmeshes, Hheap, Hsize, Hlog.
  rewrite length_app, length_fmap, <- !app_assoc.
  rewrite take_app_le by lia.
  fold (model_path (c_str buffer)).
  repeat split; try assumption; lia.
Qed.

(** Over any run of lines that returns, the loader appends one entity
    per model line that follows an [arena] line and touches nothing that
    was there before. *)
Lemma run_lines_tracks (junk : nat -> XMFLOAT3) (bs : list string) :
  forall (n : nat) (l l' : Loader) (g0 : MyDemoGame) (paths : list string),
  tracks g0 paths l ->
  run_lines junk n bs l = Ok l' ->
  tracks g0 (paths ++ (model_path <$> model_lines (Z.eqb (state l) 4) bs)) l'.
Proof.
  induction bs as [|b bs IH]; intros n l l' g0 paths Htracks.
  - cbn. intros [= <-]. now rewrite app_nil_r.
  - cbn [Game.run_lines model_lines].
    destruct (loop_body_cases b (junk n) l)
      as [[Harena Hbody]|[(Harena & Hmodel & f & v & Hbody)
         |[(Harena & Hmodel & Hbody)|[(Harena & Hmodel & Hstate & Hbody)
         |(Harena & Hmodel & Hstate)]]]]; rewrite Harena.
    + rewrite Hbody. cbn [bind]. intros Hrun.
      apply (IH _ _ _ g0 paths) in Hrun; [exact Hrun|exact Htracks].
    + rewrite Hbody, Hmodel, andb_false_r. cbn [bind]. intros Hrun.
      apply (IH _ _ _ g0 paths (tracks_field g0 paths l f v Htracks)) in Hrun.
      replace (state (if_current (setter f v) l)) with (state l) in Hrun;
        [exact Hrun|].
      unfold if_current. now destruct (currentEntity l).
    + rewrite Hbody, Hmodel, andb_false_r. cbn [bind]. now apply IH.
    + rewrite Hbody. pose proof (proj2 (Z.eqb_neq _ _) Hstate) as Hseen.
      rewrite Hseen. cbn [andb bind]. intros Hrun.
      apply (IH _ _ _ g0 paths Htracks) in Hrun. now rewrite Hseen in Hrun.
    + rewrite Hmodel, Hstate. cbn [Z.eqb Pos.eqb andb].
      destruct (Nat.le_gt_cases 6 (String.length (c_str b))) as [Hlen|Hshort].
      * destruct (tracks_model g0 paths l b (junk n) Htracks Hstate Hmodel Hlen)
          as (l1 & Hbody & Hstate1 & Htracks1).
        rewrite Hbody. cbn [bind]. intros Hrun.
        apply (IH _ _ _ g0 _ Htracks1) in Hrun.
        rewrite Hstate1 in Hrun. cbn [Z.eqb Pos.eqb] in Hrun.
        rewrite <- app_assoc in Hrun. exact Hrun.
      * now rewrite (short_model_line_throws b (junk n) l Hstate Hmodel Hshort).
Qed.

(** A game tracks itself before the first line. *)
Lemma tracks_initial (g : MyDemoGame) : tracks g [] (initial g).
Proof.
  unfold tracks, appended, initial. cbn.
  rewrite !app_nil_r, Nat.add_0_r, firstn_all. now repeat split.
Qed.

(** The game a load returns, on a file that opens. *)
Lemma TestLoadLevel_tracks (fs : filesystem) (junk : nat -> XMFLOAT3)
    (mapName contents : string) (g g' : MyDemoGame) :
  fs mapName = Some contents ->
  TestLoadLevel fs junk mapName g = Some (Ok g') ->
  appended g g' (Mesh_file <$>
                   (model_path <$> model_lines false (lines_of contents)))
  /\ logged g' =
     (logged g ++ (model_path <$> model_lines false (lines_of contents)))%list.
Proof.
  intros Hopen.
  rewrite (LoaderSpec.TestLoadLevel_run_lines UNINDEXED Transform_ctor
             fs junk mapName contents g Hopen).
  destruct (Game.run_lines _ _ _ _ _ _) as [l|e] eqn:Hrun; [|discriminate].
  cbn [finish]. intros [= <-].
  pose proof (run_lines_tracks junk _ 0 _ _ g [] (tracks_initial g) Hrun)
    as (Happ & Hlog & _).
  now split.
Qed.

(** Without a current entity and without a model line after an [arena]
    line, a run of lines returns and leaves the game alone. *)
Lemma run_lines_idle (junk : nat -> XMFLOAT3) (bs : list string) :
  forall (n : nat) (l : Loader),
  currentEntity l = nullptr ->
  model_lines (Z.eqb (state l) 4) bs = [] ->
  exists l', run_lines junk n bs l = Ok l'
             /\ game l' = game l /\ currentEntity l' = nullptr.
Proof.
  induction bs as [|b bs IH]; intros n l Hcur; [now exists l|].
  cbn [Game.run_lines model_lines].
  destruct (loop_body_cases b (junk n) l)
    as [[Harena Hbody]|[(Harena & Hmodel & f & v & Hbody)
       |[(Harena & Hmodel & Hbody)|[(Harena & Hmodel & Hstate & Hbody)
       |(Harena & Hmodel & Hstate)]]]]; rewrite Harena.
  - rewrite Hbody. cbn [bind]. intros Hnone.
    now apply (IH (S n) {| game := game l; state := 4;
                           currentEntity := currentEntity l |}).
  - rewrite Hbody, Hmodel, andb_false_r. cbn [bind].
    unfold if_current. rewrite Hcur. now apply IH.
  - rewrite Hbody, Hmodel, andb_false_r. cbn [bind]. now apply IH.
  - rewrite Hbody. pose proof (proj2 (Z.eqb_neq _ _) Hstate) as Hseen.
    rewrite Hseen. cbn [andb bind]. intros Hnone.
    apply IH; [exact Hcur|now rewrite Hseen].
  - rewrite Hmodel, Hstate. cbn [Z.eqb Pos.eqb andb]. discriminate.
Qed.

(** The state after a run of lines that returns: 4 once a line with
    [arena] in it was read, and what it was before otherwise. *)
Lemma run_lines_state (junk : nat -> XMFLOAT3) (bs : list string) :
  forall (n : nat) (l l' : Loader),
  run_lines junk n bs l = Ok l' ->
  (state l' = 4%Z
   /\ Exists (fun b => contains (c_str b) "arena" = true) bs)
  \/ (state l' = state l
      /\ Forall (fun b => contains (c_str b) "arena" = false) bs).
Proof.
  induction bs as [|b bs IH]; intros n l l'.
  - cbn. intros [= <-]. right. now split.
  - cbn [Game.run_lines].
    destruct (loop_body_cases b (junk n) l)
      as [[Harena Hbody]|[(Harena & Hmodel & f & v & Hbody)
         |[(Harena & Hmodel & Hbody)|[(Harena & Hmodel & Hstate & Hbody)
         |(Harena & Hmodel & Hstate)]]]].
    + rewrite Hbody. cbn [bind]. intros Hrun. left.
      split; [|now apply Exists_cons_hd].
      destruct (IH _ _ _ Hrun) as [[Hfour _]|[Hsame _]]; [exact Hfour|exact Hsame].
    + rewrite Hbody. cbn [bind]. intros Hrun.
      destruct (IH _ _ _ Hrun) as [[Hfour Hex]|[Hsame Hall]].
      * left. split; [exact Hfour|now apply Exists_cons_tl].
      * right. split; [|now apply Forall_cons].
        rewrite Hsame. unfold if_current. now destruct (currentEntity l).
    + rewrite Hbody. cbn [bind]. intros Hrun.
      destruct (IH _ _ _ Hrun) as [[Hfour Hex]|[Hsame Hall]].
      * left. split; [exact Hfour|now apply Exists_cons_tl].
      * right. split; [exact Hsame|now apply Forall_cons].
    + rewrite Hbody. cbn [bind]. intros Hrun.
      destruct (IH _ _ _ Hrun) as [[Hfour Hex]|[Hsame Hall]].
      * left. split; [exact Hfour|now apply Exists_cons_tl].
      * right. split; [exact Hsame|now apply Forall_cons].
    + destruct (Game.loop_body UNINDEXED Transform_ctor b (junk n) l)
        as [l1|e] eqn:Hbody; [|discriminate].
      cbn [bind]. intros Hrun.
      assert (Hstate1 : state l1 = state l).
      { destruct (Nat.le_gt_cases 6 (String.length (c_str b))) as [Hlen|Hshort].
        - rewrite (LoaderSpec.model_line_creates UNINDEXED Transform_ctor
                     b (junk n) l Hstate Hmodel Hlen) in Hbody.
          injection Hbody as <-. now rewrite Hstate.
        - now rewrite (short_model_line_throws b (junk n) l Hstate Hmodel Hshort)
            in Hbody. }
      destruct (IH _ _ _ Hrun) as [[Hfour Hex]|[Hsame Hall]].
      * left. split; [exact Hfour|now apply Exists_cons_tl].
      * right. split; [congruence|now apply Forall_cons].
Qed.

(** A run of lines that throws does so on one of its lines, after the
    lines before it have returned. *)
Lemma run_lines_throw (junk : nat -> XMFLOAT3) (bs : list string) :
  forall (n : nat) (l : Loader) (e : exception),
  run_lines junk n bs l = Throw e ->
  exists k b l1,
    bs !! k = Some b
    /\ run_lines junk n (take k bs) l = Ok l1
    /\ loop_body b (junk (n + k)) l1 = Throw e.
Proof.
  induction bs as [|b bs IH]; intros n l e; [discriminate|].
  cbn [Game.run_lines].
  destruct (Game.loop_body UNINDEXED Transform_ctor b (junk n) l)
    as [l1|e1] eqn:Hbody; cbn [bind].
  - intros Hrun. destruct (IH _ _ _ Hrun) as (k & b' & l2 & Hk & Hpre & Hthrow).
    exists (S k), b', l2. split; [exact Hk|].
    cbn [take Game.run_lines]. rewrite Hbody. cbn [bind].
    split; [exact Hpre|]. now rewrite Nat.add_succ_r.
  - intros [= <-]. exists 0, b, l. rewrite Nat.add_0_r. now repeat split.
Qed.

(** The body throws on the line [model] in state 4, and on no other. *)
Lemma loop_body_throws (buffer : string) (junk : XMFLOAT3) (l : Loader)
    (e : exception) :
  loop_body buffer junk l = Throw e <->
  state l = 4%Z /\ c_str buffer = "model".
Proof.
  split.
  - intros Hthrow.
    destruct (loop_body_cases buffer junk l)
      as [[Harena Hbody]|[(Harena & Hmodel & f & v & Hbody)
         |[(Harena & Hmodel & Hbody)|[(Harena & Hmodel & Hstate & Hbody)
         |(Harena & Hmodel & Hstate)]]]]; try congruence.
    split; [exact Hstate|].
    destruct (Nat.le_gt_cases 6 (String.length (c_str buffer))) as [Hlen|Hshort].
    + rewrite (LoaderSpec.model_line_creates UNINDEXED Transform_ctor
                 buffer junk l Hstate Hmodel Hlen) in Hthrow. discriminate.
    + apply short_model_line; [|exact Hshort].
      unfold is_model_line in Hmodel. now apply andb_prop in Hmodel as [? _].
  - intros [Hstate Hline]. destruct e.
    apply short_model_line_throws; [exact Hstate| |]; rewrite Hline.
    + reflexivity.
    + cbn. lia.
Qed.

(** *** The whole load *)

(** What a load that returns leaves of the game it was given. *)
Lemma TestLoadLevel_prefixes (fs : filesystem) (junk : nat -> XMFLOAT3)
    (mapName : string) (g g' : MyDemoGame) :
  TestLoadLevel fs junk mapName g = Some (Ok g') ->
  ents g `prefix_of` ents g'
  /\ meshes g `prefix_of` meshes g'
  /\ heap_Entity g `prefix_of` heap_Entity g'
  /\ heap_Mesh g `prefix_of` heap_Mesh g'
  /\ logged g `prefix_of` logged g'
  /\ render g' = render g
  /\ basicMaterial g' = basicMaterial g
  /\ (forall a ent, heap_Entity g !! a = Some ent ->
                    heap_Entity g' !! a = Some ent).
Proof.
  intros Hload.
  assert (Hmain : ents g `prefix_of` ents g'
                  /\ meshes g `prefix_of` meshes g'
                  /\ heap_Entity g `prefix_of` heap_Entity g'
                  /\ heap_Mesh g `prefix_of` heap_Mesh g'
                  /\ logged g `prefix_of` logged g'
                  /\ render g' = render g
                  /\ basicMaterial g' = basicMaterial g).
  { destruct (fs mapName) as [contents|] eqn:Hopen.
    - destruct (TestLoadLevel_tracks fs junk mapName contents g g' Hopen Hload)
        as ((Hents & Hmeshes & Hheap & Htake & _ & Hrender & Hmat) & Hlog).
      split; [rewrite Hents; now apply prefix_app_r|].
      split; [rewrite Hmeshes; now apply prefix_app_r|].
      split.
      { exists (drop (length (heap_Entity g)) (heap_Entity g')).
        rewrite <- Htake at 1. symmetry. apply take_drop. }
      split; [rewrite Hheap; now apply prefix_app_r|].
      split; [rewrite Hlog; now apply prefix_app_r|].
      now split.
    - unfold Game.TestLoadLevel, open in Hload. rewrite Hopen in Hload.
      injection Hload as <-. now repeat split. }
  destruct Hmain as (He & Hm & Hhe & Hhm & Hl & Hr & Hb).
  repeat split; try assumption.
  intros a ent Ha. now apply (prefix_lookup_Some _ _ _ _ Ha).
Qed.

(** X2.  A load that returns has only added to the game: the entity and
    mesh vectors, both stores and the log it was given are prefixes of
    what it returns, so every entity that was there, its transform
    included, and every mesh is still there at its address and as it
    was; [render] and [basicMaterial] are not written. *)
Theorem load_keeps_what_was_there (fs : filesystem) (junk : nat -> XMFLOAT3)
    (mapName : string) (g g' : MyDemoGame) :
  TestLoadLevel fs junk mapName g = Some (Ok g') ->
  ents g `prefix_of` ents g'
  /\ meshes g `prefix_of` meshes g'
  /\ heap_Entity g `prefix_of` heap_Entity g'
  /\ heap_Mesh g `prefix_of` heap_Mesh g'
  /\ logged g `prefix_of` logged g'
  /\ render g' = render g
  /\ basicMaterial g' = basicMaterial g
  /\ (forall a ent, heap_Entity g !! a = Some ent ->
                    heap_Entity g' !! a = Some ent).
Proof. exact (TestLoadLevel_prefixes fs junk mapName g g'). Qed.

(** X3.  A load that returns has built one entity and one mesh per model
    line that follows a line with [arena] in it, in the order of the
    file: the meshes are the files [Assets/Models/<rest of the line from
    its seventh character>.obj], these paths are what was logged, and the
    new objects sit at the next free addresses, which is what [ents] and
    [meshes] end in. *)
Theorem load_builds_the_model_lines (fs : filesystem)
    (junk : nat -> XMFLOAT3) (mapName contents : string) (g g' : MyDemoGame) :
  fs mapName = Some contents ->
  TestLoadLevel fs junk mapName g = Some (Ok g') ->
  let paths := model_path <$> model_lines false (lines_of contents) in
  ents g' = (ents g ++ seq (length (heap_Entity g)) (length paths))%list
  /\ meshes g' = (meshes g ++ seq (length (heap_Mesh g)) (length paths))%list
  /\ heap_Mesh g' = (heap_Mesh g ++ (Mesh_file <$> paths))%list
  /\ logged g' = (logged g ++ paths)%list
  /\ length (heap_Entity g') = length (heap_Entity g) + length paths.
Proof.
  intros Hopen Hload paths.
  destruct (TestLoadLevel_tracks fs junk mapName contents g g' Hopen Hload)
    as ((Hents & Hmeshes & Hheap & _ & Hlen & _) & Hlog).
  rewrite length_fmap in *. fold paths in Hents, Hmeshes, Hheap, Hlen, Hlog.
  now repeat split.
Qed.

(** X4.  A file without a model line after a line with [arena] in it is
    loaded without any effect, whatever else its lines say: the load
    returns the game it was given. *)
Theorem load_without_model_line_changes_nothing (fs : filesystem)
    (junk : nat -> XMFLOAT3) (mapName contents : string) (g : MyDemoGame) :
  fs mapName = Some contents ->
  model_lines false (lines_of contents) = [] ->
  TestLoadLevel fs junk mapName g = Some (Ok g).
Proof.
  intros Hopen Hnone.
  rewrite (LoaderSpec.TestLoadLevel_run_lines UNINDEXED Transform_ctor
             fs junk mapName contents g Hopen).
  destruct (run_lines_idle junk (lines_of contents) 0 (initial g) eq_refl Hnone)
    as (l & Hrun & Hgame & _).
  rewrite Hrun. cbn [finish]. now rewrite Hgame.
Qed.

(** X5.  A load throws, and what it throws is [std::out_of_range], exactly
    when the file has a line that is [model] and nothing else after a
    line with [arena] in it. *)
Theorem load_throws_on_bare_model_line (fs : filesystem)
    (junk : nat -> XMFLOAT3) (mapName contents : string) (g : MyDemoGame) :
  fs mapName = Some contents ->
  TestLoadLevel fs junk mapName g = Some (Throw out_of_range) <->
  exists j k a b,
    j < k
    /\ lines_of contents !! j = Some a /\ contains (c_str a) "arena" = true
    /\ lines_of contents !! k = Some b /\ c_str b = "model".
Proof.
  intros Hopen.
  rewrite (LoaderSpec.TestLoadLevel_run_lines UNINDEXED Transform_ctor
             fs junk mapName contents g Hopen).
  set (bs := lines_of contents). split.
  - destruct (Game.run_lines _ _ _ _ _ _) as [l|e] eqn:Hrun; [discriminate|].
    intros _.
    destruct (run_lines_throw junk bs 0 (initial g) e Hrun)
      as (k & b & l1 & Hk & Hpre & Hthrow).
    apply loop_body_throws in Hthrow as [Hstate Hline].
    destruct (run_lines_state junk _ 0 _ _ Hpre) as [[_ Hex]|[Hsame _]].
    + apply Exists_exists in Hex as (a & Ha & Harena).
      apply list_elem_of_lookup in Ha as [j Hj].
      apply lookup_take_Some in Hj as [Hj Hlt].
      now exists j, k, a, b.
    + rewrite Hstate in Hsame. discriminate.
  - intros (j & k & a & b & Hlt & Hj & Harena & Hk & Hline).
    rewrite <- (take_drop_middle bs k b Hk).
    rewrite (LoaderSpec.run_lines_app UNINDEXED Transform_ctor).
    destruct (Game.run_lines UNINDEXED Transform_ctor junk 0 (take k bs)
                (initial g)) as [l1|[]] eqn:Hpre; [|reflexivity].
    cbn [bind Game.run_lines].
    assert (Hstate : state l1 = 4%Z).
    { destruct (run_lines_state junk _ 0 _ _ Hpre) as [[Hfour _]|[_ Hall]];
        [exact Hfour|].
      rewrite Forall_lookup in Hall.
      assert (Hj' : take k bs !! j = Some a) by now rewrite lookup_take_lt.
      specialize (Hall j a Hj'). cbn in Hall. congruence. }
    now rewrite (proj2 (loop_body_throws b _ l1 out_of_range) (conj Hstate Hline)).
Qed.

(** X6.  Of the five states the comment of [TestLoadLevel] lists, the loop
    is only ever in two: after any lines that return, the state is 4 when
    a line with [arena] in it was among them and 0 when none was. *)
Theorem loader_state_is_0_or_4 (junk : nat -> XMFLOAT3) (n : nat)
    (bs : list string) (g : MyDemoGame) (l : Loader) :
  run_lines junk n bs (initial g) = Ok l ->
  (state l = 4%Z /\ Exists (fun b => contains (c_str b) "arena" = true) bs)
  \/ (state l = 0%Z /\ Forall (fun b => contains (c_str b) "arena" = false) bs).
Proof. intros Hrun. exact (run_lines_state junk bs n (initial g) l Hrun). Qed.

(** *** Scanning and the uninitialised locals *)

(** Three scanned values overwrite all of the local. *)
Lemma store3_full (vs : list float) (j1 j2 : XMFLOAT3) :
  length vs = 3 -> Scanf.store3 vs j1 = Scanf.store3 vs j2.
Proof.
  destruct vs as [|a [|b [|c [|d vs]]]]; try discriminate. reflexivity.
Qed.

(** No scanned value leaves the local as it was. *)
Lemma store3_none (j : XMFLOAT3) : Scanf.store3 [] j = j.
Proof. now destruct j. Qed.

(** A return value of 3 is three stored values. *)
Lemma sscanf_s_three (chars fmt : string) :
  fst (Scanf.sscanf_s chars fmt) = 3%Z ->
  length (snd (Scanf.sscanf_s chars fmt)) = 3.
Proof.
  unfold Scanf.sscanf_s.
  destruct (Scanf.scan _ _) as [vs input_failure]. cbn [fst snd].
  destruct (input_failure && Nat.eqb (length vs) 0); unfold Scanf.EOF; lia.
Qed.

(** The body on a line whose scan, if the line is a field line, stores
    three values: what the uninitialised local holds does not matter. *)
Lemma loop_body_ignores_junk (buffer : string) (j1 j2 : XMFLOAT3) (l : Loader) :
  (forall f, reaches f (c_str buffer) = true ->
             fst (Scanf.sscanf_s (c_str buffer) (format f)) = 3%Z) ->
  loop_body buffer j1 l = loop_body buffer j2 l.
Proof.
  intros Hfull. rewrite !LoaderSpec.loop_body_perform.
  assert (Hfield : forall f, reaches f (c_str buffer) = true ->
            Game.perform UNINDEXED Transform_ctor (Field f) (c_str buffer) j1 l
            = Game.perform UNINDEXED Transform_ctor (Field f) (c_str buffer) j2 l).
  { intros f Hreach. cbn [Game.perform].
    now rewrite (store3_full _ j1 j2 (sscanf_s_three _ _ (Hfull f Hreach))). }
  pose proof (Hfield F_pos) as Hpos. pose proof (Hfield F_rot) as Hrot.
  pose proof (Hfield F_scl) as Hscl. clear Hfield Hfull.
  unfold directive_by_substring, reaches in *.
  destruct (contains (c_str buffer) "arena"); [reflexivity|].
  destruct (contains (c_str buffer) "pos"); [now apply Hpos|].
  destruct (contains (c_str buffer) "rot"); [now apply Hrot|].
  destruct (contains (c_str buffer) "scl"); [now apply Hscl|].
  now destruct (Z.eqb (state l) 4 && contains (c_str buffer) "model").
Qed.

(** X7.  When every line of the file that is taken for [pos], [rot] or
    [scl] is scanned with a return value of 3, the load does not depend
    on what the uninitialised locals hold. *)
Theorem well_scanned_file_ignores_uninitialised (fs : filesystem)
    (j1 j2 : nat -> XMFLOAT3) (mapName contents : string) (g : MyDemoGame) :
  fs mapName = Some contents ->
  (forall b f, b ∈ lines_of contents -> reaches f (c_str b) = true ->
               fst (Scanf.sscanf_s (c_str b) (format f)) = 3%Z) ->
  TestLoadLevel fs j1 mapName g = TestLoadLevel fs j2 mapName g.
Proof.
  intros Hopen Hfull.
  rewrite !(LoaderSpec.TestLoadLevel_run_lines UNINDEXED Transform_ctor
              fs _ mapName contents g Hopen).
  do 2 f_equal. generalize (initial g) as l. generalize 0 as n.
  induction (lines_of contents) as [|b bs IH]; intros n l; [reflexivity|].
  cbn [Game.run_lines].
  rewrite (loop_body_ignores_junk b (j1 n) (j2 n) l).
  - destruct (Game.loop_body UNINDEXED Transform_ctor b (j2 n) l) as [l1|e];
      [|reflexivity].
    cbn [bind]. apply IH. intros b' f Hin. apply Hfull. now apply list_elem_of_further.
  - intros f. apply Hfull. apply list_elem_of_here.
Qed.

(** A scan whose literal characters are not at the start of the input
    stores nothing. *)
Lemma scan_literals (lits : string) (ds : list Scanf.directive)
    (chars : string) :
  String.prefix lits chars = false ->
  fst (Scanf.scan ((Scanf.Literal <$> list_ascii_of_string lits) ++ ds) chars)
  = [].
Proof.
  revert chars. induction lits as [|a lits IH]; intros chars.
  - now destruct chars.
  - destruct chars as [|d chars]; [reflexivity|].
    cbn [String.prefix list_ascii_of_string fmap list_fmap app Scanf.scan].
    destruct (ascii_dec a d) as [->|Hne].
    + rewrite Ascii.eqb_refl. apply IH.
    + intros _. now rewrite (proj2 (Ascii.eqb_neq a d) Hne).
Qed.

Lemma format_keyword (f : field) :
  Scanf.parse_format (format f) =
  ((Scanf.Literal <$> list_ascii_of_string (keyword f))
   ++ [Scanf.Space; Scanf.Float; Scanf.Space; Scanf.Float;
       Scanf.Space; Scanf.Float])%list.
Proof. now destruct f. Qed.

(** X8.  A line that is taken for [pos], [rot] or [scl] but does not
    start with the keyword (it is indented, or the keyword is inside a
    longer word) has nothing scanned from it: the setter is called on the
    current entity with exactly what the uninitialised local held. *)
Theorem field_line_must_start_with_keyword (f : field) (buffer : string)
    (junk : XMFLOAT3) (l : Loader) (e : nat) (ent : Entity) :
  currentEntity l = Some e ->
  heap_Entity (game l) !! e = Some ent ->
  reaches f (c_str buffer) = true ->
  String.prefix (keyword f) (c_str buffer) = false ->
  snd (Scanf.sscanf_s (c_str buffer) (format f)) = []
  /\ exists l',
       loop_body buffer junk l = Ok l'
       /\ heap_Entity (game l') !! e =
          Some {| transform := after (setter f junk) (transform ent);
                  components := components ent |}.
Proof.
  intros Hcur Hent Hreach Hstart.
  assert (Hnone : snd (Scanf.sscanf_s (c_str buffer) (format f)) = []).
  { unfold Scanf.sscanf_s. rewrite format_keyword.
    pose proof (scan_literals (keyword f)
                  [Scanf.Space; Scanf.Float; Scanf.Space; Scanf.Float;
                   Scanf.Space; Scanf.Float] (c_str buffer) Hstart) as Hscan.
    destruct (Scanf.scan _ _) as [vs input_failure]. exact Hscan. }
  split; [exact Hnone|].
  destruct (LoaderSpec.field_line_sets UNINDEXED Transform_ctor f buffer junk
              l e ent Hcur Hent Hreach) as (l' & Hbody & Hset & _).
  exists l'. split; [exact Hbody|].
  rewrite Hset, Hnone, store3_none. unfold after, on_transform.
  now destruct (setter f junk (transform ent)).
Qed.

(** *** The lines the loop reads *)

Lemma append_cons (c : ascii) (a b : string) :
  String c a ++ b = String c (a ++ b).
Proof. reflexivity. Qed.

Lemma append_assoc (a b c : string) : (a ++ b) ++ c = a ++ (b ++ c).
Proof.
  induction a as [|d a IH]; [reflexivity|].
  rewrite !append_cons. now rewrite IH.
Qed.

Lemma append_length (a b : string) :
  String.length (a ++ b) = String.length a + String.length b.
Proof.
  induction a as [|d a IH]; [reflexivity|].
  rewrite append_cons. cbn [String.length]. now rewrite IH.
Qed.

(** A line that fits and is followed by a line feed is extracted whole,
    and the line feed with it. *)
Lemma extract_line_reads (room : nat) (line rest : string) :
  one_line line = true -> String.length line <= room ->
  extract_line room (line ++ newline ++ rest) = (line, rest, AtDelim).
Proof.
  revert room. induction line as [|c line IH]; intros room Hone Hfit.
  - reflexivity.
  - rewrite append_cons. cbn [extract_line one_line String.length] in *.
    apply andb_prop in Hone as [Hc Hone].
    destruct (Ascii.eqb c "010"%char); [discriminate|].
    destruct room as [|room]; [lia|].
    rewrite (IH room Hone) by lia. reflexivity.
Qed.

(** A last line that fits is extracted whole, up to the end of the file. *)
Lemma extract_line_last (room : nat) (line : string) :
  one_line line = true -> String.length line <= room ->
  extract_line room line = (line, EmptyString, AtEof).
Proof.
  revert room. induction line as [|c line IH]; intros room Hone Hfit.
  - reflexivity.
  - cbn [extract_line one_line String.length] in *.
    apply andb_prop in Hone as [Hc Hone].
    destruct (Ascii.eqb c "010"%char); [discriminate|].
    destruct room as [|room]; [lia|].
    rewrite (IH room Hone) by lia. reflexivity.
Qed.

(** Of a line with more characters than there is room for, as many as
    there is room for are extracted. *)
Lemma extract_line_full (room : nat) (line : string) (c : ascii)
    (rest : string) :
  one_line line = true -> String.length line = room ->
  Ascii.eqb c "010"%char = false ->
  extract_line room (line ++ String c rest) = (line, String c rest, BufferFull).
Proof.
  revert room. induction line as [|d line IH]; intros room Hone Hfit Hc.
  - cbn in Hfit. subst room.
    change (EmptyString ++ String c rest) with (String c rest).
    cbn [extract_line]. now rewrite Hc.
  - rewrite append_cons. cbn [extract_line one_line String.length] in *.
    apply andb_prop in Hone as [Hd Hone].
    destruct (Ascii.eqb d "010"%char); [discriminate|].
    destruct room as [|room]; [lia|].
    rewrite (IH room Hone) by (lia || assumption). reflexivity.
Qed.

(** The buffers read do not depend on the fuel, once it is more than the
    characters left. *)
Lemma buffers_fuel (f1 : nat) :
  forall (f2 : nat) (s : ifstream),
  (good s = true -> String.length (rdbuf s) < f1) ->
  (good s = true -> String.length (rdbuf s) < f2) ->
  buffers f1 s = buffers f2 s.
Proof.
  induction f1 as [|f1 IH]; intros f2 s H1 H2.
  - destruct f2; cbn; destruct (good s); try reflexivity;
      specialize (H1 eq_refl); lia.
  - destruct f2 as [|f2]; cbn [buffers]; destruct (good s) eqn:Hgood;
      try reflexivity.
    + specialize (H2 eq_refl). lia.
    + destruct (getline s 400) as [buffer s'] eqn:Hget. f_equal.
      apply IH; intros Hgood';
        pose proof (LoaderSpec.getline_good_shrinks s s' 400 buffer Hget Hgood');
        [specialize (H1 eq_refl)|specialize (H2 eq_refl)]; lia.
Qed.

Lemma lines_of_cons (line rest : string) :
  fits line = true ->
  lines_of (line ++ newline ++ rest) = line :: lines_of rest.
Proof.
  unfold fits. intros Hfits. apply andb_prop in Hfits as [Hone Hlen].
  apply Nat.leb_le in Hlen.
  unfold lines_of at 1. cbn [buffers good eofbit failbit negb andb].
  unfold getline. cbn [rdbuf Nat.sub].
  rewrite (extract_line_reads 399 line rest Hone Hlen). f_equal.
  unfold lines_of. apply buffers_fuel; cbn [rdbuf]; intros _.
  - rewrite !append_length. cbn. lia.
  - lia.
Qed.

Lemma lines_of_last (line : string) :
  fits line = true -> lines_of line = [line].
Proof.
  unfold fits. intros Hfits. apply andb_prop in Hfits as [Hone Hlen].
  apply Nat.leb_le in Hlen.
  unfold lines_of. cbn [buffers good eofbit failbit negb andb].
  unfold getline. cbn [rdbuf Nat.sub].
  rewrite (extract_line_last 399 line Hone Hlen). f_equal.
  now destruct (String.length line).
Qed.

Lemma lines_of_long (line : string) (c : ascii) (rest : string) :
  one_line line = true -> String.length line = 399 ->
  Ascii.eqb c "010"%char = false ->
  lines_of (line ++ String c rest) = [line].
Proof.
  intros Hone Hlen Hc.
  unfold lines_of. cbn [buffers good eofbit failbit negb andb].
  unfold getline. cbn [rdbuf Nat.sub].
  rewrite (extract_line_full 399 line c rest Hone Hlen Hc). f_equal.
  now destruct (String.length (line ++ String c rest)).
Qed.

(** The lines of a text, then what the rest of the file gives. *)
Lemma lines_of_text (lines : list string) (rest : string) :
  Forall (fun line => fits line = true) lines ->
  lines_of (text_of lines ++ rest) = (lines ++ lines_of rest)%list.
Proof.
  induction 1 as [|line lines Hfits _ IH]; [reflexivity|].
  cbn [text_of]. rewrite !append_assoc, (lines_of_cons line _ Hfits).
  now rewrite IH.
Qed.

(** X9.  A file of lines that fit the buffer (no more than 399 characters
    each), each but the last ended by a line feed, is read back line by
    line: the loop body sees exactly these lines, the last one included
    even when it is empty, as it is for a file that ends in a line
    feed. *)
Theorem file_is_read_line_by_line (lines : list string) (last : string) :
  Forall (fun line => fits line = true) lines ->
  fits last = true ->
  lines_of (text_of lines ++ last) = (lines ++ [last])%list.
Proof.
  intros Hlines Hlast.
  now rewrite (lines_of_text lines last Hlines), (lines_of_last last Hlast).
Qed.

(** X10.  A line of 400 characters or more ends the load: its first 399
    characters are the last line the loop body sees, and the load is the
    load of the file cut off after them, whatever comes after, further
    lines included. *)
Theorem overlong_line_ends_the_load (fs fs' : filesystem)
    (junk : nat -> XMFLOAT3) (mapName : string) (g : MyDemoGame)
    (lines : list string) (long : string) (c : ascii) (rest : string) :
  Forall (fun line => fits line = true) lines ->
  one_line long = true -> String.length long = 399 ->
  Ascii.eqb c "010"%char = false ->
  fs mapName = Some (text_of lines ++ long ++ String c rest) ->
  fs' mapName = Some (text_of lines ++ long) ->
  lines_of (text_of lines ++ long ++ String c rest) = (lines ++ [long])%list
  /\ TestLoadLevel fs junk mapName g = TestLoadLevel fs' junk mapName g.
Proof.
  intros Hlines Hone Hlen Hc Hopen Hopen'.
  assert (Hread : lines_of (text_of lines ++ long ++ String c rest)
                  = (lines ++ [long])%list).
  { now rewrite (lines_of_text lines _ Hlines),
      (lines_of_long long c rest Hone Hlen Hc). }
  split; [exact Hread|].
  rewrite (LoaderSpec.TestLoadLevel_run_lines UNINDEXED Transform_ctor
             fs junk mapName _ g Hopen).
  rewrite (LoaderSpec.TestLoadLevel_run_lines UNINDEXED Transform_ctor
             fs' junk mapName _ g Hopen').
  rewrite Hread, (lines_of_text lines long Hlines), lines_of_last; [reflexivity|].
  unfold fits. rewrite Hone, Hlen. reflexivity.
Qed.

End WithEngine.

End LoaderFacts.

(** ** Building and tearing down the scene *)

Module SceneFacts.

Import Runtime Game Scene.

Section WithEngine.

Context `{MatrixModel}.
Variable UNINDEXED : Z.
Variable Transform_ctor : Transform.Transform.

Local Abbreviation add_drawn_entity :=
  (Scene.add_drawn_entity UNINDEXED Transform_ctor).
Local Abbreviation CreateGeometry := (Scene.CreateGeometry UNINDEXED Transform_ctor).
Local Abbreviation Init_scene := (Scene.Init_scene UNINDEXED Transform_ctor).
Local Abbreviation drawn_entity := (Scene.drawn_entity UNINDEXED Transform_ctor).
Local Abbreviation TestLoadLevel := (Game.TestLoadLevel UNINDEXED Transform_ctor).

(** The game after the five statements, member by member. *)
Lemma add_drawn_entity_effect (mesh : Mesh) (g : MyDemoGame) :
  add_drawn_entity mesh g =
  {| ents := ents g ++ [length (heap_Entity g)];
     meshes := meshes g ++ [length (heap_Mesh g)];
     render := render g;
     basicMaterial := basicMaterial g;
     heap_Entity :=
       heap_Entity g
       ++ [drawn_entity (length (heap_Entity g)) (length (heap_Mesh g)) g];
     heap_Mesh := heap_Mesh g ++ [mesh];
     logged := logged g |}.
Proof.
  unfold Scene.add_drawn_entity, new_Mesh, Game.new_Entity, call_Entity,
    ents_push_back, meshes_push_back. cbn. f_equal.
  pose proof (alter_app_r
                (after (AddComponent (length (heap_Entity g))
                          (Game.DrawnMesh_ctor UNINDEXED (render g)
                             (length (heap_Mesh g)) (basicMaterial g))))
                (heap_Entity g) [Game.Entity_ctor Transform_ctor] 0) as Halter.
  rewrite Nat.add_0_r in Halter. now rewrite Halter.
Qed.

Lemma appended_refl (g : MyDemoGame) : appended g g [].
Proof.
  unfold appended. cbn. rewrite !app_nil_r, Nat.add_0_r, firstn_all.
  now repeat split.
Qed.

Lemma appended_trans (g g1 g2 : MyDemoGame) (ms1 ms2 : list Mesh) :
  appended g g1 ms1 -> appended g1 g2 ms2 -> appended g g2 (ms1 ++ ms2).
Proof.
  intros (He1 & Hm1 & Hh1 & Ht1 & Hl1 & Hr1 & Hb1)
         (He2 & Hm2 & Hh2 & Ht2 & Hl2 & Hr2 & Hb2).
  unfold appended. rewrite length_app, !seq_app.
  rewrite He2, Hm2, Hh2, He1, Hm1, Hh1, Hl2, Hl1.
  rewrite length_app, <- !app_assoc.
  repeat split; try congruence; try lia.
  transitivity (take (length (heap_Entity g))
                  (take (length (heap_Entity g1)) (heap_Entity g2))).
  - rewrite take_take. f_equal. lia.
  - now rewrite Ht2.
Qed.

Lemma add_drawn_entity_appended (mesh : Mesh) (g : MyDemoGame) :
  appended g (add_drawn_entity mesh g) [mesh]
  /\ logged (add_drawn_entity mesh g) = logged g.
Proof.
  rewrite add_drawn_entity_effect. unfold appended.
  cbn [ents meshes heap_Mesh heap_Entity render basicMaterial logged
       length seq].
  rewrite take_app_length, length_app. now repeat split.
Qed.

(** The three meshes of [CreateGeometry]. *)
Lemma CreateGeometry_appended (g : MyDemoGame) :
  appended g (CreateGeometry g)
    [Mesh_file "Assets/Models/helix.obj"; Mesh_arrays 4 6;
     Mesh_file "Assets/Models/sphere.obj"].
Proof.
  unfold Scene.CreateGeometry. cbv zeta.
  set (g1 := add_drawn_entity (Mesh_file "Assets/Models/helix.obj") g).
  set (g2 := add_drawn_entity (Mesh_arrays 4 6) g1).
  apply (appended_trans g g1 _ [Mesh_file "Assets/Models/helix.obj"]
           [Mesh_arrays 4 6; Mesh_file "Assets/Models/sphere.obj"]);
    [apply add_drawn_entity_appended|].
  apply (appended_trans g1 g2 _ [Mesh_arrays 4 6]
           [Mesh_file "Assets/Models/sphere.obj"]);
    apply add_drawn_entity_appended.
Qed.

(** X11.  [CreateGeometry] adds three entities and three meshes to any
    game and changes nothing else: the helix file, the mesh built from
    four vertices and six indices and the sphere file, in this order, at
    the next three free addresses of the mesh store, and at the next
    three free addresses of the entity store one entity each, with a
    fresh transform and one drawn-mesh component for its mesh that points
    back at it. *)
Theorem CreateGeometry_adds_three (g : MyDemoGame) :
  let n := length (heap_Entity g) in
  let m := length (heap_Mesh g) in
  let g' := CreateGeometry g in
  ents g' = (ents g ++ [n; n + 1; n + 2])%list
  /\ meshes g' = (meshes g ++ [m; m + 1; m + 2])%list
  /\ heap_Mesh g' =
     (heap_Mesh g ++ [Mesh_file "Assets/Models/helix.obj"; Mesh_arrays 4 6;
                      Mesh_file "Assets/Models/sphere.obj"])%list
  /\ heap_Entity g' =
     (heap_Entity g ++ [drawn_entity n m g; drawn_entity (n + 1) (m + 1) g;
                        drawn_entity (n + 2) (m + 2) g])%list
  /\ logged g' = logged g
  /\ render g' = render g
  /\ basicMaterial g' = basicMaterial g.
Proof.
  intros n m g'. subst g'. unfold Scene.CreateGeometry.
  rewrite !add_drawn_entity_effect.
  cbn [ents meshes heap_Mesh heap_Entity logged render basicMaterial].
  rewrite !length_app. cbn [length]. fold n m.
  rewrite <- !app_assoc. cbn [app].
  replace (n + 1 + 1) with (n + 2) by lia.
  replace (m + 1 + 1) with (m + 2) by lia.
  now repeat split.
Qed.

(** What a load that returns has appended, on any file system. *)
Lemma TestLoadLevel_appended (fs : filesystem) (junk : nat -> XMFLOAT3)
    (mapName : string) (g g' : MyDemoGame) :
  TestLoadLevel fs junk mapName g = Some (Ok g') ->
  exists ms, appended g g' ms.
Proof.
  intros Hload. destruct (fs mapName) as [contents|] eqn:Hopen.
  - eexists. exact (proj1 (LoaderFacts.TestLoadLevel_tracks UNINDEXED
                             Transform_ctor fs junk mapName contents g g'
                             Hopen Hload)).
  - unfold Game.TestLoadLevel, open in Hload. rewrite Hopen in Hload.
    injection Hload as <-. exists []. apply appended_refl.
Qed.

(** X12.  After the two scene-building calls of [Init] on a game without
    entities, the three entities [UpdateScene] indexes as [ents[0]],
    [ents[1]] and [ents[2]] exist whatever the level file holds, and are
    the three of [CreateGeometry] as it left them: the loader has not
    touched them. *)
Theorem Init_scene_keeps_first_three (fs : filesystem)
    (junk : nat -> XMFLOAT3) (g g' : MyDemoGame) (i : nat) :
  ents g = [] ->
  Init_scene fs junk g = Some (Ok g') ->
  i < 3 ->
  ents g' !! i = Some (length (heap_Entity g) + i)
  /\ heap_Entity g' !! (length (heap_Entity g) + i) =
     Some (drawn_entity (length (heap_Entity g) + i)
             (length (heap_Mesh g) + i) g).
Proof.
  intros Hnone Hload Hi. unfold Scene.Init_scene in Hload.
  destruct (LoaderFacts.TestLoadLevel_prefixes UNINDEXED Transform_ctor
              fs junk _ _ _ Hload) as (Hents & _ & _ & _ & _ & _ & _ & Hkeep).
  destruct (CreateGeometry_adds_three g) as (He & _ & _ & Hh & _).
  cbv zeta in He, Hh. rewrite Hnone in He. cbn [app] in He.
  split.
  - apply (prefix_lookup_Some (ents (CreateGeometry g))); [|exact Hents].
    rewrite He. destruct i as [|[|[|i]]]; try lia; cbn; f_equal; lia.
  - apply Hkeep. rewrite Hh, lookup_app_r by lia.
    replace (length (heap_Entity g) + i - length (heap_Entity g)) with i by lia.
    destruct i as [|[|[|i]]]; try lia; cbn; do 2 f_equal; lia.
Qed.

(** *** The destructor *)

Lemma owns_all_appended (g g' : MyDemoGame) (ms : list Mesh) :
  owns_all g -> appended g g' ms -> owns_all g'.
Proof.
  intros [He Hm] (He' & Hm' & Hh' & _ & Hl' & _).
  unfold owns_all. rewrite He', Hm', Hl', Hh', He, Hm, length_app.
  now rewrite !seq_app.
Qed.

(** Deleting through pointers that are distinct and all alive succeeds:
    the objects they point at are dead afterwards, and no other cell of
    the store has changed. *)
Lemma delete_each_distinct (v : list nat) :
  forall alive : list bool,
  NoDup v ->
  (forall p, p ∈ v -> alive !! p = Some true) ->
  exists alive',
    delete_each v alive = Some alive'
    /\ length alive' = length alive
    /\ (forall p, p ∈ v -> alive' !! p = Some false)
    /\ (forall p, p ∉ v -> alive' !! p = alive !! p).
Proof.
  induction v as [|q v IH]; intros alive Hnodup Halive.
  - exists alive. split; [reflexivity|]. split; [reflexivity|].
    split; [|reflexivity]. intros p Hp. now apply elem_of_nil in Hp.
  - apply NoDup_cons in Hnodup as [Hq Hnodup].
    pose proof (Halive q (list_elem_of_here _ _)) as Hqa.
    cbn [delete_each]. unfold delete. rewrite Hqa.
    destruct (IH (<[q := false]> alive) Hnodup)
      as (alive' & Hrun & Hlen & Hdead & Hrest).
    { intros p Hp. rewrite list_lookup_insert_ne.
      - apply Halive. now apply list_elem_of_further.
      - intros ->. now apply Hq. }
    exists alive'. split; [exact Hrun|].
    split; [now rewrite Hlen, length_insert|].
    split.
    + intros p Hp. apply elem_of_cons in Hp as [->|Hp]; [|now apply Hdead].
      rewrite (Hrest q Hq). apply list_lookup_insert_eq.
      now apply (lookup_lt_Some alive q true).
    + intros p Hp. apply not_elem_of_cons in Hp as [Hne Hp].
      rewrite (Hrest p Hp). now apply list_lookup_insert_ne.
Qed.

(** Deleting through a list that holds every address of a store once, on
    which every object is alive, leaves none alive. *)
Lemma delete_each_all (v : list nat) (n : nat) :
  v ≡ₚ seq 0 n ->
  delete_each v (replicate n true) = Some (replicate n false).
Proof.
  intros Hperm.
  assert (Hin : forall p, p ∈ v <-> p < n).
  { intros p. rewrite Hperm, elem_of_seq. lia. }
  destruct (delete_each_distinct v (replicate n true))
    as (alive' & Hrun & Hlen & Hdead & _).
  - rewrite Hperm. apply NoDup_seq.
  - intros p Hp. apply lookup_replicate_2. now apply Hin.
  - rewrite Hrun. f_equal. rewrite length_replicate in Hlen.
    apply list_eq. intros i. destruct (Nat.lt_ge_cases i n) as [Hi|Hi].
    + rewrite (Hdead i (proj2 (Hin i) Hi)). symmetry.
      now apply lookup_replicate_2.
    + rewrite !lookup_ge_None_2; [reflexivity| |]; rewrite ?length_replicate; lia.
Qed.

Lemma destructor_loops_owned (g : MyDemoGame) :
  owns_all g ->
  destructor_loops g =
  Some (replicate (length (heap_Entity g)) false,
        replicate (length (heap_Mesh g)) false).
Proof.
  intros [He Hm]. unfold destructor_loops.
  now rewrite (delete_each_all _ _ He), (delete_each_all _ _ Hm).
Qed.

(** X13.  When [ents] and [meshes] hold the address of every entity and
    mesh of the free store exactly once, in whatever order, they still do
    after [CreateGeometry] and a load that returns, and the two loops of
    the destructor then delete every entity and every mesh exactly once:
    no pointer is deleted twice and no entity or mesh is left alive. *)
Theorem destructor_deletes_each_object_once (fs : filesystem)
    (junk : nat -> XMFLOAT3) (g g' : MyDemoGame) :
  owns_all g ->
  Init_scene fs junk g = Some (Ok g') ->
  owns_all g'
  /\ destructor_loops g' =
     Some (replicate (length (heap_Entity g')) false,
           replicate (length (heap_Mesh g')) false).
Proof.
  intros Howns Hload. unfold Scene.Init_scene in Hload.
  destruct (TestLoadLevel_appended fs junk _ _ _ Hload) as [ms Happ].
  assert (Howns' : owns_all g').
  { apply (owns_all_appended (CreateGeometry g) g' ms); [|exact Happ].
    exact (owns_all_appended g _ _ Howns (CreateGeometry_appended g)). }
  split; [exact Howns'|now apply destructor_loops_owned].
Qed.

End WithEngine.

End SceneFacts.

(** ** The mouse *)

Module MouseFacts.

Import Mouse.

Lemma track_effect (px py : Z) (m : Mouse) :
  curMousePos (track px py m) = {| x := px; y := py |}
  /\ capture (track px py m) = capture m
  /\ (at_origin (prevMousePos m) = false ->
      prevMousePos (track px py m) = prevMousePos m)
  /\ (at_origin (prevMousePos m) = true ->
      prevMousePos (track px py m) =
      {| x := x (curMousePos m); y := y (curMousePos m) |}).
Proof.
  unfold track, at_origin.
  destruct (Z.eqb (x (prevMousePos m)) 0 && Z.eqb (y (prevMousePos m)) 0);
    repeat split; (reflexivity || discriminate).
Qed.

(** Once the previous position is not the origin, the messages leave it
    alone and only move the current position. *)
Lemma dispatch_all_keeps_prev (msgs : list message) :
  forall m : Mouse,
  at_origin (prevMousePos m) = false ->
  prevMousePos (dispatch_all msgs m) = prevMousePos m
  /\ curMousePos (dispatch_all msgs m) = cursor_after msgs (curMousePos m).
Proof.
  induction msgs as [|msg msgs IH]; intros m Hprev; [now split|].
  change (dispatch_all (msg :: msgs) m)
    with (dispatch_all msgs (dispatch msg m)).
  destruct msg as [px py|px py|px py]; cbn [dispatch cursor_after].
  - destruct (track_effect px py m) as (Hcur & _ & Hkeep & _).
    specialize (Hkeep Hprev).
    destruct (IH (after (OnMouseDown px py) m)) as [Hp Hc].
    { unfold after, OnMouseDown. cbn [snd prevMousePos]. now rewrite Hkeep. }
    rewrite Hp, Hc. unfold after, OnMouseDown. cbn [snd prevMousePos curMousePos].
    now rewrite Hkeep, Hcur.
  - destruct (IH (after (OnMouseUp px py) m)) as [Hp Hc]; [exact Hprev|].
    now rewrite Hp, Hc.
  - destruct (track_effect px py m) as (Hcur & _ & Hkeep & _).
    specialize (Hkeep Hprev).
    destruct (IH (after (OnMouseMove px py) m)) as [Hp Hc].
    { unfold after, OnMouseMove. cbn [snd]. now rewrite Hkeep. }
    rewrite Hp, Hc. unfold after, OnMouseMove. cbn [snd].
    now rewrite Hkeep, Hcur.
Qed.

(** X14.  From one frame to the next, with the cursor not at the origin
    at the first: the deltas handed to the camera are the displacement,
    in 32-bit arithmetic, from where the cursor was at the first frame
    to where the messages in between have left it, however many messages
    of whatever kind there were; with none it is zero. *)
Theorem delta_is_displacement_since_last_frame (m : Mouse)
    (msgs : list message) :
  at_origin (curMousePos m) = false ->
  let c := curMousePos m in
  let m0 := after UpdateScene_mouse m in
  fst (UpdateScene_mouse (dispatch_all msgs m0)) =
  (wrap32 (x (cursor_after msgs c) - x c),
   wrap32 (y (cursor_after msgs c) - y c))
  /\ fst (UpdateScene_mouse m0) = (0%Z, 0%Z).
Proof.
  intros Hc c m0.
  assert (Hprev : at_origin (prevMousePos m0) = false) by exact Hc.
  destruct (dispatch_all_keeps_prev msgs m0 Hprev) as [Hp Hcur].
  split.
  - unfold UpdateScene_mouse at 1. cbn [fst]. now rewrite Hp, Hcur.
  - unfold m0, after, UpdateScene_mouse. cbn. now rewrite !Z.sub_diag.
Qed.

(** X15.  With the cursor at the origin at a frame, the handlers take the
    previous position for unset.  If one message then moves the cursor,
    the next frame reports the whole displacement from the origin; if a
    second one follows, the previous position is set to where the first
    one went, and the next frame reports the displacement from there:
    the first movement is never handed to the camera. *)
Theorem movement_from_the_origin_is_dropped (m : Mouse)
    (ax ay bx by' : Z) (msgs : list message) :
  at_origin (curMousePos m) = true ->
  at_origin {| x := ax; y := ay |} = false ->
  let m0 := after UpdateScene_mouse m in
  let b := {| x := bx; y := by' |} in
  fst (UpdateScene_mouse (dispatch_all [Move ax ay] m0)) =
  (wrap32 (ax - 0), wrap32 (ay - 0))
  /\ fst (UpdateScene_mouse
            (dispatch_all (Move ax ay :: Move bx by' :: msgs) m0)) =
     (wrap32 (x (cursor_after msgs b) - ax),
      wrap32 (y (cursor_after msgs b) - ay)).
Proof.
  intros Horigin Ha m0 b.
  assert (Hx : x (curMousePos m) = 0%Z /\ y (curMousePos m) = 0%Z).
  { unfold at_origin in Horigin. apply andb_prop in Horigin as [Hx Hy].
    now apply Z.eqb_eq in Hx, Hy. }
  destruct Hx as [Hx Hy].
  assert (Hm1 : dispatch (Move ax ay) m0
                = {| prevMousePos := {| x := 0; y := 0 |};
                     curMousePos := {| x := ax; y := ay |};
                     capture := capture m |}).
  { unfold m0, dispatch, after, OnMouseMove, UpdateScene_mouse, track.
    cbn. rewrite Hx, Hy. reflexivity. }
  split.
  - cbn [dispatch_all foldl]. rewrite Hm1. reflexivity.
  - change (dispatch_all (Move ax ay :: Move bx by' :: msgs) m0)
      with (dispatch_all msgs (dispatch (Move bx by') (dispatch (Move ax ay) m0))).
    rewrite Hm1.
    set (m2 := dispatch (Move bx by') _).
    assert (Hm2 : prevMousePos m2 = {| x := ax; y := ay |}
                  /\ curMousePos m2 = b) by (now split).
    destruct Hm2 as [Hp2 Hc2].
    destruct (dispatch_all_keeps_prev msgs m2) as [Hp Hc];
      [now rewrite Hp2|].
    unfold UpdateScene_mouse. cbn [fst]. now rewrite Hp, Hc, Hp2, Hc2.
Qed.

End MouseFacts.

(** ** More about [Component] *)

Module ComponentFacts.

Import Component.

(** X1.  Over any sequence of [SetEntiy] calls on a component as the
    constructor builds it, the back-reference held at the end is the
    first pointer of the sequence that is not null (and null when there
    is none): calls that pass [nullptr] before it do not use up the one
    assignment, and the index stays [UNINDEXED]. *)
Theorem SetEntiy_keeps_first_entity (UNINDEXED : Z)
    (ps : list (option nat)) :
  let c := SetEntiy_calls ps (Component_ctor UNINDEXED) in
  parrentEntity c = first_entity ps /\ index c = UNINDEXED.
Proof.
  intros c.
  exact (ComponentSpec.SetEntiy_calls_first_entity ps
           (Component_ctor UNINDEXED) eq_refl).
Qed.

End ComponentFacts.

(** ** The further properties at concrete inputs *)

Module MoreExamples.

Import Runtime Game Scene Sample Sample2.

Lemma load_keeps_what_was_there_witness :
  load cube_level empty_game = Some (Ok (game with_cube))
  /\ ents empty_game `prefix_of` ents (game with_cube).
Proof.
  assert (H1 : load cube_level empty_game = Some (Ok (game with_cube)))
    by (vm_compute; reflexivity).
  split; [exact H1|].
  exact (proj1 (LoaderFacts.load_keeps_what_was_there (-1) fresh_transform
                  _ _ _ _ _ H1)).
Defined.

Lemma load_builds_the_model_lines_witness :
  load cube_level empty_game = Some (Ok (game with_cube))
  /\ logged (game with_cube) =
     (logged empty_game
      ++ (model_path <$> model_lines false (lines_of cube_level)))%list.
Proof.
  assert (H0 : one_file "level.txt" cube_level "level.txt" = Some cube_level)
    by reflexivity.
  assert (H1 : load cube_level empty_game = Some (Ok (game with_cube)))
    by (vm_compute; reflexivity).
  split; [exact H1|].
  destruct (LoaderFacts.load_builds_the_model_lines (-1) fresh_transform
              (one_file "level.txt" cube_level) junk789 "level.txt"
              cube_level empty_game (game with_cube) H0 H1)
    as (_ & _ & _ & Hlog & _).
  exact Hlog.
Defined.

Lemma load_without_model_line_changes_nothing_witness :
  model_lines false (lines_of ("pos 1 2 3" ++ LF ++ "model cube" ++ LF)) = []
  /\ load ("pos 1 2 3" ++ LF ++ "model cube" ++ LF) empty_game
     = Some (Ok empty_game).
Proof.
  assert (H1 : model_lines false
                 (lines_of ("pos 1 2 3" ++ LF ++ "model cube" ++ LF)) = [])
    by (vm_compute; reflexivity).
  split; [exact H1|].
  apply (LoaderFacts.load_without_model_line_changes_nothing (-1)
           fresh_transform
           (one_file "level.txt" ("pos 1 2 3" ++ LF ++ "model cube" ++ LF))
           junk789 "level.txt"
           ("pos 1 2 3" ++ LF ++ "model cube" ++ LF) empty_game);
    [reflexivity|exact H1].
Defined.

Lemma load_throws_on_bare_model_line_witness :
  lines_of ("arena" ++ LF ++ "model") !! 1 = Some "model"
  /\ load ("arena" ++ LF ++ "model") empty_game = Some (Throw out_of_range).
Proof.
  assert (H0 : one_file "level.txt" ("arena" ++ LF ++ "model") "level.txt"
               = Some ("arena" ++ LF ++ "model")) by reflexivity.
  assert (H1 : lines_of ("arena" ++ LF ++ "model") !! 1 = Some "model")
    by (vm_compute; reflexivity).
  split; [exact H1|].
  apply (proj2 (LoaderFacts.load_throws_on_bare_model_line (-1)
                  fresh_transform
                  (one_file "level.txt" ("arena" ++ LF ++ "model")) junk789
                  "level.txt" ("arena" ++ LF ++ "model") empty_game H0)).
  exists 0, 1, "arena", "model".
  split; [lia|]. split; [vm_compute; reflexivity|].
  split; [reflexivity|]. split; [exact H1|reflexivity].
Defined.

Lemma loader_state_is_0_or_4_witness :
  Game.run_lines (-1) fresh_transform junk789 0 ["arena"] (initial empty_game)
  = Ok in_arena
  /\ (state in_arena = 4%Z \/ state in_arena = 0%Z).
Proof.
  assert (H1 : Game.run_lines (-1) fresh_transform junk789 0 ["arena"]
                 (initial empty_game) = Ok in_arena) by reflexivity.
  split; [exact H1|].
  destruct (LoaderFacts.loader_state_is_0_or_4 (-1) fresh_transform
              junk789 0 ["arena"] empty_game in_arena H1)
    as [[Hfour _]|[Hzero _]]; [now left|now right].
Defined.

Lemma well_scanned_file_ignores_uninitialised_witness :
  lines_of (cube_level ++ "pos 1 2 3")
  = ["arena"; "model cube"; "pos 1 2 3"]
  /\ Game.TestLoadLevel (-1) fresh_transform
       (one_file "level.txt" (cube_level ++ "pos 1 2 3")) junk789
       "level.txt" empty_game
     = Game.TestLoadLevel (-1) fresh_transform
         (one_file "level.txt" (cube_level ++ "pos 1 2 3")) junk000
         "level.txt" empty_game.
Proof.
  assert (H1 : lines_of (cube_level ++ "pos 1 2 3")
               = ["arena"; "model cube"; "pos 1 2 3"])
    by (vm_compute; reflexivity).
  split; [exact H1|].
  apply (LoaderFacts.well_scanned_file_ignores_uninitialised (-1)
           fresh_transform (one_file "level.txt" (cube_level ++ "pos 1 2 3"))
           junk789 junk000 "level.txt"
           (cube_level ++ "pos 1 2 3") empty_game); [reflexivity|].
  intros b f Hin. rewrite H1 in Hin.
  repeat match goal with
         | Hin : _ ∈ _ :: _ |- _ => inversion Hin; subst; clear Hin
         | Hin : _ ∈ [] |- _ => inversion Hin
         end;
    destruct f; intros Hreach; vm_compute in Hreach; try discriminate;
    vm_compute; reflexivity.
Defined.

Lemma field_line_must_start_with_keyword_witness :
  reaches F_pos (c_str "  pos 1 2 3") = true
  /\ String.prefix (keyword F_pos) (c_str "  pos 1 2 3") = false
  /\ snd (Scanf.sscanf_s (c_str "  pos 1 2 3") (format F_pos)) = [].
Proof.
  assert (H1 : currentEntity with_cube = Some 0) by reflexivity.
  assert (H2 : heap_Entity (game with_cube) !! 0
               = Some (mkEntity fresh_transform
                         [mkDrawnMesh (Component.mkComponent (Some 0) (-1)) 0 0 0]))
    by reflexivity.
  assert (H3 : reaches F_pos (c_str "  pos 1 2 3") = true) by reflexivity.
  assert (H4 : String.prefix (keyword F_pos) (c_str "  pos 1 2 3") = false)
    by reflexivity.
  split; [exact H3|]. split; [exact H4|].
  exact (proj1 (LoaderFacts.field_line_must_start_with_keyword (-1)
                  fresh_transform F_pos "  pos 1 2 3" (vec 7 8 9) with_cube
                  0 _ H1 H2 H3 H4)).
Defined.

Lemma file_is_read_line_by_line_witness :
  fits "arena" = true /\ fits "model cube" = true /\ fits "" = true
  /\ lines_of (text_of ["arena"; "model cube"] ++ "")
     = ["arena"; "model cube"; ""].
Proof.
  repeat (split; [reflexivity|]).
  apply (LoaderFacts.file_is_read_line_by_line ["arena"; "model cube"] "").
  - repeat constructor.
  - reflexivity.
Defined.

Lemma overlong_line_ends_the_load_witness :
  String.length long_line = 399
  /\ lines_of (text_of ["arena"] ++ long_line
               ++ String "b"%char (LF ++ "model cube"))
     = ["arena"; long_line].
Proof.
  assert (H1 : one_line long_line = true) by (vm_compute; reflexivity).
  assert (H2 : String.length long_line = 399) by (vm_compute; reflexivity).
  split; [exact H2|].
  refine (proj1 (LoaderFacts.overlong_line_ends_the_load (-1) fresh_transform
                   (one_file "level.txt"
                      (text_of ["arena"] ++ long_line
                       ++ String "b"%char (LF ++ "model cube")))
                   (one_file "level.txt" (text_of ["arena"] ++ long_line))
                   junk789 "level.txt" empty_game ["arena"] long_line
                   "b"%char (LF ++ "model cube") _ H1 H2 eq_refl
                   eq_refl eq_refl)).
  repeat constructor.
Defined.

Lemma Init_scene_keeps_first_three_witness :
  init_scene cube_level empty_game = Some (Ok cube_scene)
  /\ ents cube_scene !! 2 = Some 2.
Proof.
  assert (H1 : init_scene cube_level empty_game = Some (Ok cube_scene))
    by (vm_compute; reflexivity).
  split; [exact H1|].
  exact (proj1 (SceneFacts.Init_scene_keeps_first_three (-1) fresh_transform
                  (untitled cube_level) junk789 empty_game cube_scene 2
                  eq_refl H1 (le_n 3))).
Defined.

Lemma destructor_deletes_each_object_once_witness :
  ents shuffled_game = [1; 0]
  /\ owns_all shuffled_game
  /\ init_scene cube_level shuffled_game = Some (Ok shuffled_scene)
  /\ destructor_loops shuffled_scene =
     Some (replicate (length (heap_Entity shuffled_scene)) false,
           replicate (length (heap_Mesh shuffled_scene)) false).
Proof.
  assert (H0 : owns_all shuffled_game).
  { split; cbn; [apply perm_swap|reflexivity]. }
  assert (H1 : init_scene cube_level shuffled_game = Some (Ok shuffled_scene))
    by (vm_compute; reflexivity).
  split; [reflexivity|]. split; [exact H0|]. split; [exact H1|].
  exact (proj2 (SceneFacts.destructor_deletes_each_object_once (-1)
                  fresh_transform (untitled cube_level) junk789 shuffled_game
                  shuffled_scene H0 H1)).
Defined.

Lemma delta_is_displacement_since_last_frame_witness :
  Mouse.at_origin (Mouse.curMousePos mouse_at_5_5) = false
  /\ fst (Mouse.UpdateScene_mouse
            (Mouse.dispatch_all [Mouse.Move 7 9; Mouse.Up 7 9]
               (after Mouse.UpdateScene_mouse mouse_at_5_5)))
     = (Mouse.wrap32 (7 - 5), Mouse.wrap32 (9 - 5)).
Proof.
  split; [reflexivity|].
  exact (proj1 (MouseFacts.delta_is_displacement_since_last_frame
                  mouse_at_5_5 [Mouse.Move 7 9; Mouse.Up 7 9] eq_refl)).
Defined.

Lemma movement_from_the_origin_is_dropped_witness :
  Mouse.at_origin (Mouse.curMousePos mouse_at_origin) = true
  /\ fst (Mouse.UpdateScene_mouse
            (Mouse.dispatch_all [Mouse.Move 100 100; Mouse.Move 103 104]
               (after Mouse.UpdateScene_mouse mouse_at_origin)))
     = (Mouse.wrap32 (103 - 100), Mouse.wrap32 (104 - 100)).
Proof.
  split; [reflexivity|].
  exact (proj2 (MouseFacts.movement_from_the_origin_is_dropped
                  mouse_at_origin 100 100 103 104 [] eq_refl eq_refl)).
Defined.

End MoreExamples.
